(** * dbt schema upgrade (v1 -> v2): the conversion core of
      [scripts/upgrade_dbt_schema_tests_v1_to_v2.py]

    The development embeds the converter of the script ([sort_keyfunc],
    [sorted_column_list], the class [ModelTestBuilder] and [convert_schema])
    as Rocq functions and proves the properties its specification states.

    Conventions of the embedding.
    - The input is the tree that [yaml.safe_load] returns: scalars, lists
      and mappings.  Mapping keys are hashable, so they are scalars by type.
      Floats, dates and binary scalars are left out.
    - Python text is a [string] of bytes (UTF-8).  Byte-wise lexicographic
      order and byte-wise substring search agree with the code-point ones.
    - A raised exception is the [Err] branch of [res]; a raise discards the
      builder under construction, as the script never catches inside
      [convert_schema].
    - Comparisons follow Python 3: [<] between a string and a number, or
      with [None], raises [TypeError].

    The file has three parts: the embedding of the script, the vocabulary
    of the statements (among it the reading of a [constraints] mapping that
    the specification gives, module [Declared]), and the proofs, which end
    with the properties of the specification, each under its number. *)

From Stdlib Require Import List String Ascii ZArith Bool Lia Arith.
From Stdlib Require Import Sorting.Sorted Sorting.Permutation.
From Stdlib Require Import Structures.OrderedTypeEx.
Import ListNotations.
Local Open Scope string_scope.
Local Open Scope list_scope.

Set Implicit Arguments.

(* ================================================================== *)
(** ** Python values and exceptions *)
(* ================================================================== *)

Module Py.

(** Hashable YAML scalars: the values a mapping key can take. *)
Inductive scalar : Type :=
| SNone
| SBool (b : bool)
| SInt (z : Z)
| SStr (s : string).

(** The tree built by [yaml.safe_load].  A [VDict] keeps the insertion
    order of its items, as Python dictionaries do. *)
#[warnings="-register-all"]
Inductive value : Type :=
| VScalar (x : scalar)
| VList (l : list value)
| VDict (d : list (scalar * value)).

Definition dict := list (scalar * value).

(** The exceptions the converter can raise.  [OperationalError] carries the
    format template and the arguments handed to [str.format]. *)
Inductive exn : Type :=
| OperationalError (template : string) (args : list value)
| ValueError (message : string)
| NameError (name : string)
| TypeError
| AttributeError
| KeyError.

Inductive res (A : Type) : Type :=
| Ok (a : A)
| Err (e : exn).
Arguments Ok {A} a.
Arguments Err {A} e.

Definition bind {A B : Type} (m : res A) (f : A -> res B) : res B :=
  match m with
  | Ok a => f a
  | Err e => Err e
  end.

Definition raises {A : Type} (m : res A) : Prop :=
  match m with
  | Ok _ => False
  | Err _ => True
  end.

(** Numbers: [bool] is a subclass of [int], [True == 1] and [False == 0]. *)
Definition as_number (x : scalar) : option Z :=
  match x with
  | SBool b => Some (if b then 1%Z else 0%Z)
  | SInt z => Some z
  | SNone | SStr _ => None
  end.

(** [x == y] on scalars; this is also the equality of dictionary keys. *)
Definition scalar_eqb (x y : scalar) : bool :=
  match x, y with
  | SNone, SNone => true
  | SStr s, SStr t => String.eqb s t
  | _, _ =>
      match as_number x, as_number y with
      | Some a, Some b => Z.eqb a b
      | _, _ => false
      end
  end.

(** [x < y] on scalars. *)
Definition py_lt (x y : scalar) : res bool :=
  match x, y with
  | SStr s, SStr t => Ok (String.ltb s t)
  | _, _ =>
      match as_number x, as_number y with
      | Some a, Some b => Ok (Z.ltb a b)
      | _, _ => Err TypeError
      end
  end.

(** [hash(v)]: lists and dictionaries are unhashable. *)
Definition as_key (v : value) : res scalar :=
  match v with
  | VScalar x => Ok x
  | VList _ | VDict _ => Err TypeError
  end.

(** *** Dictionaries as insertion-ordered association lists *)

Section Dict.
Variable V : Type.

Fixpoint dict_get (d : list (scalar * V)) (k : scalar) : option V :=
  match d with
  | [] => None
  | (k', v) :: d' => if scalar_eqb k' k then Some v else dict_get d' k
  end.

Definition dict_mem (d : list (scalar * V)) (k : scalar) : bool :=
  match dict_get d k with
  | Some _ => true
  | None => false
  end.

(** [d[k] = v]: an existing key keeps its position and its stored key. *)
Fixpoint dict_set (d : list (scalar * V)) (k : scalar) (v : V)
  : list (scalar * V) :=
  match d with
  | [] => [(k, v)]
  | (k', v') :: d' =>
      if scalar_eqb k' k then (k', v) :: d'
      else (k', v') :: dict_set d' k v
  end.

(** A change made in place to the object held under [k], which becomes
    [v]: the dictionary sees it through the entry that holds the object,
    and a dictionary that does not hold the key is left as it is. *)
Fixpoint dict_mutate (d : list (scalar * V)) (k : scalar) (v : V)
  : list (scalar * V) :=
  match d with
  | [] => []
  | (k', v') :: d' =>
      if scalar_eqb k' k then (k', v) :: d'
      else (k', v') :: dict_mutate d' k v
  end.
End Dict.

(** [sub in s] for two strings. *)
Fixpoint str_contains (sub s : string) : bool :=
  String.prefix sub s ||
  match s with
  | EmptyString => false
  | String _ s' => str_contains sub s'
  end.

Definition is_str (v : value) (s : string) : bool :=
  match v with
  | VScalar (SStr t) => String.eqb t s
  | _ => false
  end.

(** [key in container], for a string [key]. *)
Definition py_in (key : string) (container : value) : res bool :=
  match container with
  | VDict d => Ok (dict_mem d (SStr key))
  | VList l => Ok (existsb (fun v => is_str v key) l)
  | VScalar (SStr s) => Ok (str_contains key s)
  | VScalar _ => Err TypeError
  end.

(** [container[key]], for a string [key]. *)
Definition py_getitem (container : value) (key : string) : res value :=
  match container with
  | VDict d =>
      match dict_get d (SStr key) with
      | Some v => Ok v
      | None => Err KeyError
      end
  | VList _ | VScalar _ => Err TypeError
  end.

(** [container.items()]. *)
Definition py_items (container : value) : res dict :=
  match container with
  | VDict d => Ok d
  | VList _ | VScalar _ => Err AttributeError
  end.

End Py.

Import Py.

Declare Scope res_scope.
Delimit Scope res_scope with res.
Notation "x <- m ;; k" := (bind m (fun x => k))
  (at level 61, m at next level, right associativity) : res_scope.
Notation "' p <- m ;; k" := (bind m (fun x => match x with p => k end))
  (at level 61, p pattern, m at next level, right associativity) : res_scope.
Local Open Scope res_scope.

(* ================================================================== *)
(** ** [sorted] and [list.sort] with a key *)
(* ================================================================== *)

(** Python computes every key first and then sorts stably, comparing keys
    with [<] only.  The result of a stable sort does not depend on the
    algorithm; it is written here as an insertion sort.  Nor does the
    failure: a sort that returns has compared every two neighbours of its
    result, so it returns exactly when the list has at most one element or
    all its keys are strings or all are numbers, and raises [TypeError]
    otherwise. *)
Module PySort.
Section Sort.
Variable A : Type.

Fixpoint keys_of (key : A -> res scalar) (l : list A)
  : res (list (scalar * A)) :=
  match l with
  | [] => Ok []
  | x :: l' =>
      k <- key x ;;
      r <- keys_of key l' ;;
      Ok ((k, x) :: r)
  end.

Fixpoint insert (k : scalar) (x : A) (l : list (scalar * A))
  : res (list (scalar * A)) :=
  match l with
  | [] => Ok [(k, x)]
  | (k', y) :: l' =>
      b <- py_lt k' k ;;
      if b then (r <- insert k x l' ;; Ok ((k', y) :: r))
      else Ok ((k, x) :: (k', y) :: l')
  end.

Fixpoint sort_keyed (l : list (scalar * A)) : res (list (scalar * A)) :=
  match l with
  | [] => Ok []
  | (k, x) :: l' =>
      s <- sort_keyed l' ;;
      insert k x s
  end.

Definition py_sorted (key : A -> res scalar) (l : list A) : res (list A) :=
  kl <- keys_of key l ;;
  s <- sort_keyed kl ;;
  Ok (map snd s).
End Sort.
End PySort.

Import PySort.

(* ================================================================== *)
(** ** The converter *)
(* ================================================================== *)

(** An entry of a column's [tests] list.  [add_test] is only called by
    [handle_simple_column], with the bare test name, and by
    [handle_complex_column], with a one-key dictionary
    [{test_name: test_value}]. *)
Inductive test_entry : Type :=
| Bare (test_name : scalar)
| Mapping (test_name : scalar) (test_value : dict).

(** The dictionary [{'name': column_name, 'tests': [...]}]. *)
Record column : Type := mkColumn {
  name : scalar;
  tests : list test_entry
}.

(** The dictionary built by [generate_model_dict]: the keys ['tests'] and
    ['columns'] are optional. *)
Record model : Type := mkModel {
  m_name : scalar;
  m_tests : option (list test_entry);
  m_columns : option (list column)
}.

(** The dictionary [{'version': 2, 'models': models}]. *)
Record document : Type := mkDocument {
  version : Z;
  models : list model
}.

(** [sort_keyfunc]: a string is its own key; otherwise [list(item)[0]],
    the first key of a dictionary.  [list(item)] raises [TypeError] on
    [None] and on numbers. *)
Definition sort_keyfunc (item : test_entry) : res scalar :=
  match item with
  | Bare (SStr s) => Ok (SStr s)
  | Bare _ => Err TypeError
  | Mapping k _ => Ok k
  end.

(** The loop of [sorted_column_list] over the columns already sorted by
    name; [columns] is the list being appended to. *)
Fixpoint sort_tests_loop (sorted_cols columns : list column)
  : res (list column) :=
  match sorted_cols with
  | [] => Ok columns
  | column :: rest =>
      ts <- py_sorted sort_keyfunc (tests column) ;;
      sort_tests_loop rest (columns ++ [mkColumn (name column) ts])
  end.

Definition sorted_column_list (column_dict : list (scalar * column))
  : res (list column) :=
  sorted_cols <- py_sorted (fun c => Ok (name c)) (map snd column_dict) ;;
  sort_tests_loop sorted_cols [].

Definition SIMPLE_COLUMN_TESTS : list string := ["unique"; "not_null"].

(** test name -> the key that indicates the column name *)
Definition COMPLEX_COLUMN_TESTS : list (scalar * string) :=
  [(SStr "relationships", "from"); (SStr "accepted_values", "field")].

Definition in_SIMPLE (test_name : scalar) : bool :=
  existsb (fun s => scalar_eqb (SStr s) test_name) SIMPLE_COLUMN_TESTS.

Definition in_COMPLEX (test_name : scalar) : bool :=
  dict_mem COMPLEX_COLUMN_TESTS test_name.

Record ModelTestBuilder : Type := mkBuilder {
  model_name : scalar;
  columns : list (scalar * column);
  model_tests : list test_entry
}.

(** [ModelTestBuilder.__init__] *)
Definition new_builder (model_name : scalar) : ModelTestBuilder :=
  mkBuilder model_name [] [].

Definition set_columns (self : ModelTestBuilder)
  (cols : list (scalar * column)) : ModelTestBuilder :=
  mkBuilder (model_name self) cols (model_tests self).

(** [get_column] returns the column stored under [column_name], creating it
    when absent.  The column returned is the object held by [self.columns]:
    it is identified below by the key it is stored under. *)
Definition get_column (self : ModelTestBuilder) (column_name : value)
  : res (column * ModelTestBuilder) :=
  k <- as_key column_name ;;
  match dict_get (columns self) k with
  | Some column => Ok (column, self)
  | None =>
      let column := mkColumn k [] in
      Ok (column, set_columns self (dict_set (columns self) k column))
  end.

(** [add_test]: [column['tests'].append(test_name)] mutates the column
    object that [get_column] returned.  Nothing is stored here: the change
    shows in [self.columns] only because [get_column] returns the object
    that [self.columns] holds under the name. *)
Definition add_test (self : ModelTestBuilder) (column_name : value)
  (test_name : test_entry) : res ModelTestBuilder :=
  '(column, self1) <- get_column self column_name ;;
  k <- as_key column_name ;;
  let column' := mkColumn (name column) (tests column ++ [test_name]) in
  Ok (set_columns self1 (dict_mutate (columns self1) k column')).

Fixpoint handle_simple_column (self : ModelTestBuilder)
  (test_values : list value) (test_name : scalar) : res ModelTestBuilder :=
  match test_values with
  | [] => Ok self
  | column_name :: rest =>
      self1 <- add_test self column_name (Bare test_name) ;;
      handle_simple_column self1 rest test_name
  end.

(** The double quote character of the message template. *)
Definition dquote : string := String (Ascii.ascii_of_nat 34) EmptyString.

(** 'got an invalid {} test in model {}, no "{}" value in {}' *)
Definition missing_key_template : string :=
  "got an invalid {} test in model {}, no " ++ dquote ++ "{}" ++ dquote
  ++ " value in {}".

(** The body of the [for dct in test_values] loop of
    [handle_complex_column], with [column_key] already looked up. *)
Fixpoint handle_complex_loop (self : ModelTestBuilder) (column_key : string)
  (test_values : list value) (test_name : scalar) : res ModelTestBuilder :=
  match test_values with
  | [] => Ok self
  | dct :: rest =>
      present <- py_in column_key dct ;;
      if negb present then
        Err (OperationalError missing_key_template
               [VScalar test_name; VScalar (model_name self);
                VScalar (SStr column_key); dct])
      else
        column_name <- py_getitem dct column_key ;;
        items <- py_items dct ;;
        let test_value :=
          filter (fun kv => negb (scalar_eqb (fst kv) (SStr column_key)))
                 items in
        self1 <- add_test self column_name (Mapping test_name test_value) ;;
        handle_complex_loop self1 column_key rest test_name
  end.

Definition handle_complex_column (self : ModelTestBuilder)
  (test_values : list value) (test_name : scalar) : res ModelTestBuilder :=
  match dict_get COMPLEX_COLUMN_TESTS test_name with
  | None => Err KeyError
  | Some column_key =>
      handle_complex_loop self column_key test_values test_name
  end.

(** [populate_test].  In the branch for test values that are not a list the
    script builds the message from [test_name], [model_name] and
    [type(test_values)]; [model_name] is bound neither in the method nor in
    the module ([self.model_name] is), so evaluating the arguments of
    [format] raises [NameError] before [OperationalError] is constructed. *)
Definition populate_test (self : ModelTestBuilder) (test_name : scalar)
  (test_values : value) : res ModelTestBuilder :=
  match test_values with
  | VList vs =>
      if in_SIMPLE test_name then handle_simple_column self vs test_name
      else if in_COMPLEX test_name then
        handle_complex_column self vs test_name
      else Err (ValueError "cannot handle any other tests")
  | VScalar _ | VDict _ => Err (NameError "model_name")
  end.

Fixpoint populate_loop (self : ModelTestBuilder)
  (items : list (scalar * value)) : res ModelTestBuilder :=
  match items with
  | [] => Ok self
  | (test_name, test_values) :: rest =>
      self1 <- populate_test self test_name test_values ;;
      populate_loop self1 rest
  end.

Definition populate_from_constraints (self : ModelTestBuilder)
  (constraints : value) : res ModelTestBuilder :=
  items <- py_items constraints ;;
  populate_loop self items.

Definition generate_model_dict (self : ModelTestBuilder) : res model :=
  let model := mkModel (model_name self) None None in
  let model :=
    match model_tests self with
    | [] => model
    | _ :: _ => mkModel (m_name model) (Some (model_tests self))
                        (m_columns model)
    end in
  match columns self with
  | [] => Ok model
  | _ :: _ =>
      cols <- sorted_column_list (columns self) ;;
      Ok (mkModel (m_name model) (m_tests model) (Some cols))
  end.

(** The loop of [convert_schema]; [models] is the list being appended to. *)
Fixpoint convert_loop (items : list (scalar * value)) (models : list model)
  : res (list model) :=
  match items with
  | [] => Ok models
  | (model_name, model_data) :: rest =>
      present <- py_in "constraints" model_data ;;
      if negb present then convert_loop rest models
      else
        let builder := new_builder model_name in
        constraints <- py_getitem model_data "constraints" ;;
        builder1 <- populate_from_constraints builder constraints ;;
        model <- generate_model_dict builder1 ;;
        convert_loop rest (models ++ [model])
  end.

Definition convert_schema (initial : value) : res document :=
  items <- py_items initial ;;
  models <- convert_loop items [] ;;
  Ok (mkDocument 2 models).

(** *** The sample of the script's unit test *)

Definition vstr (s : string) : value := VScalar (SStr s).

Definition foo_constraints : dict :=
  [(SStr "not_null",
    VList [vstr "id"; vstr "email"; vstr "favorite_color"]);
   (SStr "unique", VList [vstr "id"; vstr "email"]);
   (SStr "accepted_values",
    VList
      [VDict [(SStr "field", vstr "favorite_color");
              (SStr "values", VList [vstr "blue"; vstr "green"])];
       VDict [(SStr "field", vstr "likes_puppies");
              (SStr "values", VList [vstr "yes"])]])].

Definition foo_definition : value :=
  VDict [(SStr "constraints", VDict foo_constraints)].

Definition bar_definition : value :=
  VDict [(SStr "constraints",
          VDict [(SStr "not_null", VList [vstr "id"])])].

Definition sample_items : dict :=
  [(SStr "foo", foo_definition); (SStr "bar", bar_definition)].

Definition SAMPLE_SCHEMA : value := VDict sample_items.

(* ================================================================== *)
(** ** Vocabulary of the statements *)
(* ================================================================== *)

(** *** The order on keys *)

Module KeyOrder.

(** [x <= y], as the sort sees it: [y < x] is evaluated and is false. *)
Definition key_le (x y : scalar) : Prop := py_lt y x = Ok false.

(** [x < y] is evaluated and is true. *)
Definition key_lt (x y : scalar) : Prop := py_lt x y = Ok true.

(** The view of a pair of comparable keys. *)
Inductive comparable : scalar -> scalar -> Type :=
| cmp_str s t : comparable (SStr s) (SStr t)
| cmp_num x y a b :
    as_number x = Some a -> as_number y = Some b -> comparable x y.

(** [k] and [x] are equal keys for the sort: neither is below the other. *)
Definition tie (k x : scalar) : bool :=
  match py_lt k x, py_lt x k with
  | Ok false, Ok false => true
  | _, _ => false
  end.

End KeyOrder.

Import KeyOrder.

(** *** Sorted, tied *)

Module SortSpec.
Section Keyed.
Variable A : Type.
Variable key : A -> res scalar.

Definition le_fst (p q : scalar * A) : Prop := key_le (fst p) (fst q).

(** The elements whose key ties with [c]. *)
Definition tied (c : scalar) (p : scalar * A) : bool := tie c (fst p).

Definition keyed (p : scalar * A) : Prop := key (snd p) = Ok (fst p).

(** [a] comes before [b]: both keys are defined and in order. *)
Definition le_by_key (a b : A) : Prop :=
  exists ka kb, key a = Ok ka /\ key b = Ok kb /\ key_le ka kb.

Definition tied_by_key (c : scalar) (a : A) : bool :=
  match key a with
  | Ok k => tie c k
  | Err _ => false
  end.

(** The key of [a] is a string. *)
Definition has_str_key (a : A) : Prop := exists s, key a = Ok (SStr s).

End Keyed.
End SortSpec.

Import SortSpec.

(** *** Well-formed dictionaries *)

Module DictSpec.
Section Dict.
Variable V : Type.
Implicit Types d : list (scalar * V).

(** No two stored keys are equal, as in every Python dictionary. *)
Fixpoint distinct_keys d : Prop :=
  match d with
  | [] => True
  | (k, _) :: d' => dict_get d' k = None /\ distinct_keys d'
  end.

End Dict.
End DictSpec.

Import DictSpec.

(* ================================================================== *)
(** ** What a [constraints] mapping declares *)
(* ================================================================== *)

(** The reading of a version-1 [constraints] mapping given by the data
    model of the specification, as a list of (column name, test entry)
    pairs in declaration order.  These definitions do not mention the
    builder; the builder is compared with them below. *)
Module Declared.

(** An element with the designator key removed. *)
Definition without_key (key : string) (d : dict) : dict :=
  filter (fun kv => negb (scalar_eqb (fst kv) (SStr key))) d.

(** A simple test lists column names. *)
Definition simple_declaration (test_name : scalar) (elem : value)
  : list (scalar * test_entry) :=
  match elem with
  | VScalar column_name => [(column_name, Bare test_name)]
  | VList _ | VDict _ => []
  end.

(** A complex test lists mappings; the designator key gives the column and
    the other keys are the parameters. *)
Definition complex_declaration (column_key : string) (test_name : scalar)
  (elem : value) : list (scalar * test_entry) :=
  match elem with
  | VDict d =>
      match dict_get d (SStr column_key) with
      | Some (VScalar column_name) =>
          [(column_name, Mapping test_name (without_key column_key d))]
      | _ => []
      end
  | VScalar _ | VList _ => []
  end.

Definition declarations_of (test_name : scalar) (test_values : value)
  : list (scalar * test_entry) :=
  match test_values with
  | VList vs =>
      if in_SIMPLE test_name then
        flat_map (simple_declaration test_name) vs
      else
        match dict_get COMPLEX_COLUMN_TESTS test_name with
        | Some column_key =>
            flat_map (complex_declaration column_key test_name) vs
        | None => []
        end
  | VScalar _ | VDict _ => []
  end.

Definition declared_tests (constraints : dict)
  : list (scalar * test_entry) :=
  flat_map (fun kv => declarations_of (fst kv) (snd kv)) constraints.

(** The entries declared for column [n], in declaration order. *)
Definition entries_for (n : scalar) (log : list (scalar * test_entry))
  : list test_entry :=
  map snd (filter (fun p => scalar_eqb (fst p) n) log).

(** The number of times column [n] is referred to. *)
Definition appearances (n : scalar) (constraints : dict) : nat :=
  List.length (entries_for n (declared_tests constraints)).

(** The elements of the test values of one constraint kind. *)
Definition test_elements (kv : scalar * value) : list value :=
  match snd kv with
  | VList vs => vs
  | VScalar _ | VDict _ => []
  end.

End Declared.

Import Declared.

(** *** The state of the builder *)

Module Builder.

(** The tests accumulated so far for the column stored under [n]. *)
Definition tests_at (cols : list (scalar * column)) (n : scalar)
  : list test_entry :=
  match dict_get cols n with
  | Some c => tests c
  | None => []
  end.

Definition name_at (cols : list (scalar * column)) (k : scalar) : scalar :=
  match dict_get cols k with
  | Some c => name c
  | None => k
  end.

(** The column dictionary after one more test on column [k]. *)
Definition record (cols : list (scalar * column)) (p : scalar * test_entry)
  : list (scalar * column) :=
  dict_set cols (fst p)
    (mkColumn (name_at cols (fst p)) (tests_at cols (fst p) ++ [snd p])).

Definition record_all (cols : list (scalar * column))
  (log : list (scalar * test_entry)) : list (scalar * column) :=
  fold_left record log cols.

(** Every column is stored under its own name. *)
Definition well_named (cols : list (scalar * column)) : Prop :=
  Forall (fun p => name (snd p) = fst p) cols.

(** The invariant of the column dictionary. *)
Definition columns_ok (cols : list (scalar * column)) : Prop :=
  well_named cols /\ distinct_keys cols.

End Builder.

Import Builder.

(** *** Model records *)

Module ModelSpec.

(** The columns of a model record; none when the key is absent. *)
Definition model_columns (m : model) : list column :=
  match m_columns m with
  | Some cols => cols
  | None => []
  end.

(** [c'] is [c] with its tests sorted. *)
Definition tests_sorted_of (c c' : column) : Prop :=
  name c' = name c /\ py_sorted sort_keyfunc (tests c) = Ok (tests c').

(** The model record that the script builds for the constraints [cs] of
    the model [model_name]. *)
Definition built_from (model_name : scalar) (cs : dict) (m : model) : Prop :=
  exists b,
    populate_loop (new_builder model_name) cs = Ok b /\
    generate_model_dict b = Ok m.

(** The column dictionary of the builder when [generate_model_dict] runs. *)
Definition final_columns (cs : dict) : list (scalar * column) :=
  record_all [] (declared_tests cs).

Definition same_key (n : scalar) (x : scalar) : bool := scalar_eqb x n.

End ModelSpec.

Import ModelSpec.

(** *** The conversion loop *)

Module ConvertSpec.

(** The test ['constraints' not in model_data] passes control on. *)
Definition has_constraints (item : scalar * value) : bool :=
  match py_in "constraints" (snd item) with
  | Ok true => true
  | _ => false
  end.

(** [m] is the record built for the input item. *)
Definition converted (item : scalar * value) (m : model) : Prop :=
  exists cs,
    py_getitem (snd item) "constraints" = Ok (VDict cs) /\
    built_from (fst item) cs m.

End ConvertSpec.

Import ConvertSpec.

(** *** Words of the specification *)

Module Spec.

(** The test kinds the data model knows. *)
Definition known_kinds : list scalar :=
  [SStr "unique"; SStr "not_null"; SStr "relationships";
   SStr "accepted_values"].

(** The [constraints] mapping of a model definition, when it has one. *)
Definition constraints_of (model_data : value) : option dict :=
  match model_data with
  | VDict d =>
      match dict_get d (SStr "constraints") with
      | Some (VDict cs) => Some cs
      | _ => None
      end
  | VScalar _ | VList _ => None
  end.

(** The conversion error of the specification is the script's
    [OperationalError]. *)
Definition is_schema_error (e : exn) : bool :=
  match e with
  | OperationalError _ _ => true
  | _ => false
  end.

(** The text of the exception names [s]. *)
Definition exn_names (e : exn) (s : string) : bool :=
  match e with
  | OperationalError _ args => existsb (fun v => is_str v s) args
  | ValueError message => str_contains s message
  | NameError n => str_contains s n
  | TypeError | AttributeError | KeyError => false
  end.

(** *** The documents of the data model

    A model definition is a mapping; its constraints, when present, map
    known test kinds to lists; a simple test lists column names, a complex
    test lists mappings whose designator key holds a column name; names are
    strings. *)

Definition str_key (k : scalar) : Prop := exists s, k = SStr s.

Definition num_key (k : scalar) : Prop := exists z, as_number k = Some z.

(** Keys that [<] can compare with one another. *)
Definition uniform_keys (l : list scalar) : Prop :=
  Forall str_key l \/ Forall num_key l.

Definition is_name (v : value) : Prop := exists s, v = VScalar (SStr s).

Definition element_ok (test_name : scalar) (elem : value) : Prop :=
  if in_SIMPLE test_name then is_name elem
  else
    match dict_get COMPLEX_COLUMN_TESTS test_name with
    | Some column_key =>
        exists d s,
          elem = VDict d /\
          dict_get d (SStr column_key) = Some (VScalar (SStr s))
    | None => False
    end.

Definition constraint_ok (kv : scalar * value) : Prop :=
  In (fst kv) known_kinds /\
  exists vs, snd kv = VList vs /\ Forall (element_ok (fst kv)) vs.

Definition model_ok (item : scalar * value) : Prop :=
  exists d,
    snd item = VDict d /\
    match dict_get d (SStr "constraints") with
    | None => True
    | Some c => exists cs, c = VDict cs /\ Forall constraint_ok cs
    end.

Definition document_ok (initial : value) : Prop :=
  exists items, initial = VDict items /\ Forall model_ok items.

(** A declaration with a string column name and a string sort key. *)
Definition decl_ok (p : scalar * test_entry) : Prop :=
  str_key (fst p) /\ exists s, sort_keyfunc (snd p) = Ok (SStr s).

(** A stored column with a string name and string sort keys. *)
Definition col_ok (c : column) : Prop :=
  str_key (name c) /\
  Forall (fun e => exists s, sort_keyfunc e = Ok (SStr s)) (tests c).

End Spec.

Import Spec.

(** *** Sample data *)

Definition expected_bar : model :=
  mkModel (SStr "bar") None
    (Some [mkColumn (SStr "id") [Bare (SStr "not_null")]]).

Definition favorite_color_column : column :=
  mkColumn (SStr "favorite_color")
    [Mapping (SStr "accepted_values")
       [(SStr "values", VList [vstr "blue"; vstr "green"])];
     Bare (SStr "not_null")].

Definition expected_foo : model :=
  mkModel (SStr "foo") None
    (Some
       [mkColumn (SStr "email")
          [Bare (SStr "not_null"); Bare (SStr "unique")];
        favorite_color_column;
        mkColumn (SStr "id")
          [Bare (SStr "not_null"); Bare (SStr "unique")];
        mkColumn (SStr "likes_puppies")
          [Mapping (SStr "accepted_values")
             [(SStr "values", VList [vstr "yes"])]]]).

Definition expected_document : document :=
  mkDocument 2 [expected_foo; expected_bar].

Definition unknown_kind_doc : dict :=
  [(SStr "foo",
    VDict [(SStr "constraints",
            VDict [(SStr "foo_bar_test", VList [vstr "id"])])])].

Definition missing_field_element : value :=
  VDict [(SStr "values", VList [VScalar (SInt 1)])].

Definition missing_field_constraints : dict :=
  [(SStr "accepted_values", VList [missing_field_element])].

Definition missing_field_doc : dict :=
  [(SStr "foo", VDict [(SStr "constraints", VDict missing_field_constraints)])].

Definition favorite_color_element : dict :=
  [(SStr "field", vstr "favorite_color");
   (SStr "values", VList [vstr "blue"; vstr "green"])].

(** *** Further vocabulary *)

(** The three calls that the loop of [convert_schema] makes for a model
    with constraints: a new builder, [populate_from_constraints] and
    [generate_model_dict]. *)
Definition build_model (model_name : scalar) (constraints : value)
  : res model :=
  builder <- populate_from_constraints (new_builder model_name) constraints ;;
  generate_model_dict builder.

(** A bare entry names a simple test; a mapping entry names a complex test
    and its parameters do not hold the designator key of that test. *)
Definition entry_ok (e : test_entry) : Prop :=
  match e with
  | Bare k => in_SIMPLE k = true
  | Mapping k params =>
      exists column_key,
        dict_get COMPLEX_COLUMN_TESTS k = Some column_key /\
        dict_get params (SStr column_key) = None
  end.

(** The tests of a model record, column after column. *)
Definition all_tests (m : model) : list test_entry :=
  flat_map tests (model_columns m).

(** The tests of a stored column. *)
Definition stored_tests (q : scalar * column) : list test_entry :=
  tests (snd q).

(** The declarations whose entry has the kind [s] as sort key. *)
Definition of_kind (s : string) (p : scalar * test_entry) : bool :=
  tied_by_key sort_keyfunc (SStr s) (snd p).

(** The constraints of kind [s]. *)
Definition is_kind (s : string) (kv : scalar * value) : bool :=
  scalar_eqb (fst kv) (SStr s).

(** The key of a test entry as the specification describes it: a bare
    entry is its own key, a one-key mapping has its only key. *)
Definition entry_key (e : test_entry) : scalar :=
  match e with
  | Bare k => k
  | Mapping k _ => k
  end.

(** [a] does not come after [b]: their keys are strings, in lexicographic
    order. *)
Definition entry_le (a b : test_entry) : Prop :=
  exists s t,
    entry_key a = SStr s /\ entry_key b = SStr t /\ String.leb s t = true.

(** The entries whose key is the string [s]. *)
Definition keyed_as (s : string) (e : test_entry) : bool :=
  scalar_eqb (entry_key e) (SStr s).

(** The entry of a complex test for the element [d]: the one-key mapping
    from the test name to [d] without its designator key. *)
Definition complex_entry (test_name : scalar) (column_key : string)
  (d : dict) : test_entry :=
  Mapping test_name (without_key column_key d).

(** The mapping [snd kd] holds the column name [fst kd] under the
    designator key. *)
Definition designates (column_key : string) (kd : scalar * dict) : Prop :=
  dict_get (snd kd) (SStr column_key) = Some (VScalar (fst kd)).

(** The element of the sample that refers to [likes_puppies]. *)
Definition likes_puppies_element : dict :=
  [(SStr "field", vstr "likes_puppies");
   (SStr "values", VList [vstr "yes"])].

(** The column dictionary that holds the given column records. *)
Definition as_column_dict (cols : list column) : list (scalar * column) :=
  map (fun c => (name c, c)) cols.

(** The constraints of [foo] with the kinds in another order. *)
Definition foo_constraints_reordered : dict :=
  [(SStr "accepted_values",
    VList
      [VDict [(SStr "field", vstr "favorite_color");
              (SStr "values", VList [vstr "blue"; vstr "green"])];
       VDict [(SStr "field", vstr "likes_puppies");
              (SStr "values", VList [vstr "yes"])]]);
   (SStr "unique", VList [vstr "id"; vstr "email"]);
   (SStr "not_null",
    VList [vstr "id"; vstr "email"; vstr "favorite_color"])].

(** A version-1 document that states its version. *)
Definition versioned_doc : dict :=
  [(SStr "version", VScalar (SInt 1)); (SStr "foo", foo_definition)].

(** A model whose constraints are a list. *)
Definition list_constraints_doc : dict :=
  [(SStr "foo",
    VDict [(SStr "constraints", VList [vstr "not_null"; vstr "unique"])])].

(** A document with a model whose definition is a line of text. *)
Definition text_definition_doc : dict :=
  [(SStr "notes", vstr "no tests yet"); (SStr "bar", bar_definition)].

(** A column named by a string beside a column named by a number. *)
Definition mixed_columns : list (scalar * column) :=
  [(SStr "id", mkColumn (SStr "id") [Bare (SStr "not_null")]);
   (SInt 1, mkColumn (SInt 1) [Bare (SStr "not_null")])].

(* ================================================================== *)
(** ** Facts on the error monad *)
(* ================================================================== *)

Lemma bind_Ok_inv (A B : Type) (m : res A) (f : A -> res B) (b : B) :
  bind m f = Ok b -> exists a, m = Ok a /\ f a = Ok b.
Proof.
  destruct m as [a | e]; simpl; intros H.
  - exists a. split; [reflexivity | exact H].
  - discriminate H.
Qed.

Lemma bind_raises_l (A B : Type) (m : res A) (f : A -> res B) :
  raises m -> raises (bind m f).
Proof. destruct m; simpl; trivial. intros []. Qed.

(** Splits a hypothesis [bind m f = Ok b] into its two steps. *)
Tactic Notation "bind_inv" hyp(H) "as" ident(a) ident(Ha) :=
  apply bind_Ok_inv in H; destruct H as [a [Ha H]].

Tactic Notation "bind_inv" hyp(H) :=
  let a := fresh "r" in
  let Ha := fresh "E" in
  bind_inv H as a Ha.

(* ================================================================== *)
(** ** The order on keys *)
(* ================================================================== *)

Module KeyOrderFacts.

Lemma str_ltb_Lt s t : String.ltb s t = true <-> String.compare s t = Lt.
Proof.
  unfold String.ltb. destruct (String.compare s t); split; congruence.
Qed.

Lemma str_ltb_irrefl s : String.ltb s s = false.
Proof.
  destruct (String.ltb s s) eqn:E; [| reflexivity].
  apply str_ltb_Lt in E. apply String_as_OT.cmp_lt in E.
  exfalso. exact (String_as_OT.lt_not_eq _ _ E eq_refl).
Qed.

Lemma str_ltb_trans s t u :
  String.ltb s t = true -> String.ltb t u = true -> String.ltb s u = true.
Proof.
  rewrite !str_ltb_Lt. intros H1 H2.
  apply String_as_OT.cmp_lt in H1. apply String_as_OT.cmp_lt in H2.
  apply String_as_OT.cmp_lt. exact (String_as_OT.lt_trans _ _ _ H1 H2).
Qed.

Lemma str_ltb_asym s t : String.ltb s t = true -> String.ltb t s = false.
Proof.
  intros H. destruct (String.ltb t s) eqn:E; [| reflexivity].
  pose proof (str_ltb_trans _ _ _ H E) as C.
  rewrite str_ltb_irrefl in C. discriminate C.
Qed.

Lemma str_ltb_total s t :
  String.ltb s t = false -> String.ltb t s = false -> s = t.
Proof.
  unfold String.ltb. rewrite (String.compare_antisym s t).
  destruct (String.compare t s) eqn:E; simpl; try discriminate.
  intros _ _. symmetry. apply String.compare_eq_iff. exact E.
Qed.

Lemma py_lt_comparable x y b : py_lt x y = Ok b -> comparable x y.
Proof.
  destruct x as [| bx | zx | sx], y as [| by' | zy | sy]; simpl;
    intros H; try discriminate H;
    first [ apply cmp_str | eapply cmp_num; reflexivity ].
Qed.

Lemma py_lt_num x y a b :
  as_number x = Some a -> as_number y = Some b ->
  py_lt x y = Ok (Z.ltb a b).
Proof.
  destruct x, y; simpl; intros Ha Hb; try discriminate;
    inversion Ha; inversion Hb; reflexivity.
Qed.

Lemma scalar_eqb_num x y a b :
  as_number x = Some a -> as_number y = Some b ->
  scalar_eqb x y = Z.eqb a b.
Proof.
  destruct x, y; simpl; intros Ha Hb; try discriminate;
    inversion Ha; inversion Hb; reflexivity.
Qed.

(** Case analysis on the integer comparisons left in the context. *)
Ltac z_cases :=
  repeat match goal with
  | H : context [Z.ltb ?a ?b] |- _ => destruct (Z.ltb_spec a b)
  | |- context [Z.ltb ?a ?b] => destruct (Z.ltb_spec a b)
  | H : context [Z.eqb ?a ?b] |- _ => destruct (Z.eqb_spec a b)
  end;
  try reflexivity; try discriminate; try (exfalso; lia).

Lemma key_lt_le x y : key_lt x y -> key_le x y.
Proof.
  unfold key_lt, key_le. intros H.
  destruct (py_lt_comparable _ _ H) as [s t | x y a b Ha Hb].
  - simpl in *. injection H as H'.
    rewrite (str_ltb_asym _ _ H'). reflexivity.
  - rewrite (py_lt_num _ _ Ha Hb) in H. rewrite (py_lt_num _ _ Hb Ha).
    injection H as H'. f_equal. z_cases.
Qed.

Lemma key_le_trans x y z : key_le x y -> key_le y z -> key_le x z.
Proof.
  unfold key_le. intros H1 H2.
  destruct (py_lt_comparable _ _ H1) as [t s | y' x' b a Hb Ha].
  - destruct z as [| | | u]; try discriminate H2.
    simpl in *. injection H1 as H1'. injection H2 as H2'.
    f_equal.
    destruct (String.ltb u s) eqn:E; [| reflexivity].
    destruct (String.ltb s t) eqn:E2.
    + rewrite (str_ltb_trans _ _ _ E E2) in H2'. discriminate H2'.
    + rewrite (str_ltb_total _ _ E2 H1') in E. congruence.
  - destruct (py_lt_comparable _ _ H2) as [u t | z' y'' c b' Hc Hb'].
    + discriminate Hb.
    + rewrite Hb in Hb'. inversion Hb'; subst b'.
      rewrite (py_lt_num _ _ Hb Ha) in H1.
      rewrite (py_lt_num _ _ Hc Hb) in H2.
      rewrite (py_lt_num _ _ Hc Ha).
      injection H1 as H1'. injection H2 as H2'. f_equal. z_cases.
Qed.

(** Distinct keys that are in order are strictly in order. *)
Lemma key_le_neq_lt x y :
  key_le x y -> scalar_eqb x y = false -> key_lt x y.
Proof.
  unfold key_le, key_lt. intros H Hne.
  destruct (py_lt_comparable _ _ H) as [t s | y' x' b a Hb Ha].
  - simpl in *. injection H as H'. f_equal.
    destruct (String.ltb s t) eqn:E; [reflexivity |].
    rewrite (str_ltb_total _ _ E H'), String.eqb_refl in Hne.
    discriminate Hne.
  - rewrite (py_lt_num _ _ Hb Ha) in H.
    rewrite (scalar_eqb_num _ _ Ha Hb) in Hne.
    rewrite (py_lt_num _ _ Ha Hb). injection H as H'. f_equal. z_cases.
Qed.

Lemma tie_true k x : tie k x = true <-> key_le k x /\ key_le x k.
Proof.
  unfold tie, key_le.
  destruct (py_lt k x) as [[|] | e], (py_lt x k) as [[|] | e'];
    split; intros H; try discriminate H; try (destruct H; discriminate);
    auto.
Qed.

(** Two keys tied with the same key are not strictly ordered. *)
Lemma tie_not_lt k x y :
  tie k x = true -> tie k y = true -> py_lt y x = Ok true -> False.
Proof.
  rewrite !tie_true. intros [Hkx Hxk] [Hky Hyk] Hlt.
  pose proof (key_le_trans Hxk Hky) as Hxy.
  unfold key_le in Hxy. congruence.
Qed.

(** On strings the order is the lexicographic one. *)
Lemma key_lt_str s t : key_lt (SStr s) (SStr t) <-> String.ltb s t = true.
Proof.
  unfold key_lt; simpl. split; intros H; [inversion H | f_equal]; auto.
Qed.

End KeyOrderFacts.

Import KeyOrderFacts.

(* ================================================================== *)
(** ** The sort: permutation, order and stability *)
(* ================================================================== *)

Module SortFacts.
Section Keyed.
Variable A : Type.

Lemma insert_perm k x (l r : list (scalar * A)) :
  insert k x l = Ok r -> Permutation ((k, x) :: l) r.
Proof.
  revert r. induction l as [| [k' y] l IH]; simpl; intros r H.
  - injection H as <-. apply Permutation_refl.
  - bind_inv H. destruct r0.
    + bind_inv H. injection H as <-.
      eapply perm_trans; [apply perm_swap |].
      apply perm_skip. apply IH. exact E0.
    + injection H as <-. apply Permutation_refl.
Qed.

Lemma sort_keyed_perm (l r : list (scalar * A)) :
  sort_keyed l = Ok r -> Permutation l r.
Proof.
  revert r. induction l as [| [k x] l IH]; simpl; intros r H.
  - injection H as <-. apply perm_nil.
  - bind_inv H. eapply perm_trans; [| apply insert_perm; exact H].
    apply perm_skip. apply IH. exact E.
Qed.

Lemma insert_sorted k x (l r : list (scalar * A)) :
  StronglySorted (@le_fst A) l -> insert k x l = Ok r ->
  StronglySorted (@le_fst A) r.
Proof.
  revert r. induction l as [| [k' y] l IH]; simpl; intros r Hs H.
  - injection H as <-. repeat constructor.
  - inversion Hs as [| ? ? Hs' Hall]; subst.
    bind_inv H. destruct r0.
    + bind_inv H. injection H as <-. constructor.
      * apply IH; assumption.
      * apply (Permutation_Forall (insert_perm _ _ _ E0)).
        constructor; [| exact Hall].
        apply key_lt_le. exact E.
    + injection H as <-. constructor; [exact Hs |].
      constructor; [exact E |].
      eapply Forall_impl; [| exact Hall].
      intros q Hq. unfold le_fst in *. simpl in *.
      eapply key_le_trans; [exact E | exact Hq].
Qed.

Lemma sort_keyed_sorted (l r : list (scalar * A)) :
  sort_keyed l = Ok r -> StronglySorted (@le_fst A) r.
Proof.
  revert r. induction l as [| [k x] l IH]; simpl; intros r H.
  - injection H as <-. constructor.
  - bind_inv H. eapply insert_sorted; [| exact H]. apply IH. exact E.
Qed.

(** The inserted element lands in front of the elements it ties with. *)
Lemma insert_stable c k x (l r : list (scalar * A)) :
  insert k x l = Ok r ->
  filter (tied c) r = filter (tied c) ((k, x) :: l).
Proof.
  revert r. induction l as [| [k' y] l IH]; intros r H.
  - simpl in H. injection H as <-. reflexivity.
  - simpl in H. bind_inv H as b Hlt. destruct b.
    + bind_inv H as r' Hins. injection H as <-.
      change (filter (tied c) ((k', y) :: r'))
        with (if tied c (k', y) then (k', y) :: filter (tied c) r'
              else filter (tied c) r').
      rewrite (IH _ Hins). simpl.
      destruct (tied c (k', y)) eqn:Ty; [| reflexivity].
      destruct (tied c (k, x)) eqn:Tx; [| reflexivity].
      exfalso. exact (tie_not_lt _ _ _ Tx Ty Hlt).
    + injection H as <-. reflexivity.
Qed.

Lemma sort_keyed_stable c (l r : list (scalar * A)) :
  sort_keyed l = Ok r -> filter (tied c) r = filter (tied c) l.
Proof.
  revert r. induction l as [| [k x] l IH]; simpl; intros r H.
  - injection H as <-. reflexivity.
  - bind_inv H. rewrite (insert_stable c _ _ _ H). simpl.
    rewrite (IH _ E). reflexivity.
Qed.

(** *** From keyed lists back to [py_sorted] *)

Variable key : A -> res scalar.

Lemma keys_of_spec (l : list A) kl :
  keys_of key l = Ok kl -> map snd kl = l /\ Forall (keyed key) kl.
Proof.
  revert kl. induction l as [| x l IH]; simpl; intros kl H.
  - injection H as <-. split; constructor.
  - bind_inv H. bind_inv H. injection H as <-.
    destruct (IH _ E0) as [Hm Hk]. simpl. split.
    + f_equal. exact Hm.
    + constructor; [exact E | exact Hk].
Qed.

Lemma keyed_sorted (s : list (scalar * A)) :
  Forall (keyed key) s -> StronglySorted (@le_fst A) s ->
  StronglySorted (le_by_key key) (map snd s).
Proof.
  induction s as [| [k x] s IH]; simpl; intros Hk Hs.
  - constructor.
  - inversion Hk as [| ? ? Hx Hk']; subst.
    inversion Hs as [| ? ? Hs' Hall]; subst.
    constructor; [apply IH; assumption |].
    rewrite Forall_map. rewrite Forall_forall in *.
    intros [k' y] Hy. exists k, k'. repeat split.
    + exact Hx.
    + exact (Hk' _ Hy).
    + exact (Hall _ Hy).
Qed.

Lemma keyed_filter c (s : list (scalar * A)) :
  Forall (keyed key) s ->
  filter (tied_by_key key c) (map snd s) = map snd (filter (tied c) s).
Proof.
  induction s as [| [k x] s IH]; simpl; intros Hk; [reflexivity |].
  inversion Hk as [| ? ? Hx Hk']; subst.
  unfold tied_by_key at 1, tied at 1. unfold keyed in Hx. simpl in *.
  rewrite Hx. destruct (tie c k); simpl; rewrite (IH Hk'); reflexivity.
Qed.

Theorem py_sorted_perm (l r : list A) :
  py_sorted key l = Ok r -> Permutation l r.
Proof.
  unfold py_sorted. intros H. bind_inv H. bind_inv H. injection H as <-.
  destruct (keys_of_spec _ E) as [<- _].
  apply Permutation_map. apply sort_keyed_perm. exact E0.
Qed.

Theorem py_sorted_sorted (l r : list A) :
  py_sorted key l = Ok r -> StronglySorted (le_by_key key) r.
Proof.
  unfold py_sorted. intros H. bind_inv H. bind_inv H. injection H as <-.
  destruct (keys_of_spec _ E) as [_ Hk].
  apply keyed_sorted.
  - apply (Permutation_Forall (sort_keyed_perm _ E0)). exact Hk.
  - apply (sort_keyed_sorted _ E0).
Qed.

(** Stability: among the elements whose key ties with [c], the order of
    the input is kept. *)
Theorem py_sorted_stable c (l r : list A) :
  py_sorted key l = Ok r ->
  filter (tied_by_key key c) r = filter (tied_by_key key c) l.
Proof.
  unfold py_sorted. intros H. bind_inv H. bind_inv H. injection H as <-.
  destruct (keys_of_spec _ E) as [<- Hk].
  rewrite !keyed_filter.
  - rewrite (sort_keyed_stable c _ E0). reflexivity.
  - exact Hk.
  - apply (Permutation_Forall (sort_keyed_perm _ E0)). exact Hk.
Qed.
End Keyed.
End SortFacts.

Import SortFacts.

(* ================================================================== *)
(** ** Dictionaries *)
(* ================================================================== *)

Module DictFacts.

Lemma scalar_eqb_refl x : scalar_eqb x x = true.
Proof.
  destruct x as [| b | z | s]; simpl.
  - reflexivity.
  - destruct b; reflexivity.
  - apply Z.eqb_refl.
  - apply String.eqb_refl.
Qed.

Lemma scalar_eqb_sym x y : scalar_eqb x y = scalar_eqb y x.
Proof.
  destruct x as [| b | z | s], y as [| b' | z' | s']; simpl;
    try reflexivity; try apply Z.eqb_sym; try apply String.eqb_sym.
Qed.

Lemma scalar_eqb_trans x y z :
  scalar_eqb x y = true -> scalar_eqb y z = true -> scalar_eqb x z = true.
Proof.
  destruct x as [| b | a | s], y as [| b' | a' | s'], z as [| b2 | a2 | s2];
    simpl; try discriminate; try reflexivity;
    rewrite ?Z.eqb_eq, ?String.eqb_eq; intros; subst;
    try reflexivity; try congruence.
Qed.

(** Equal keys are interchangeable on the right of [scalar_eqb]. *)
Lemma scalar_eqb_congr x y z :
  scalar_eqb x y = true -> scalar_eqb z x = scalar_eqb z y.
Proof.
  intros H. destruct (scalar_eqb z x) eqn:E1, (scalar_eqb z y) eqn:E2;
    try reflexivity.
  - rewrite (scalar_eqb_trans _ _ _ E1 H) in E2. discriminate E2.
  - rewrite scalar_eqb_sym in H.
    rewrite (scalar_eqb_trans _ _ _ E2 H) in E1. discriminate E1.
Qed.

(** A string key equals only that same string. *)
Lemma scalar_eqb_str s x :
  scalar_eqb (SStr s) x = true -> x = SStr s.
Proof.
  destruct x; simpl; try discriminate.
  rewrite String.eqb_eq. congruence.
Qed.

Section Dict.
Variable V : Type.
Implicit Types d : list (scalar * V).

Lemma dict_get_congr d k k' :
  scalar_eqb k k' = true -> dict_get d k = dict_get d k'.
Proof.
  intros H. induction d as [| [k0 v0] d IH]; simpl; [reflexivity |].
  rewrite (scalar_eqb_congr _ _ k0 H). rewrite IH. reflexivity.
Qed.

Lemma dict_get_set d k v k' :
  dict_get (dict_set d k v) k' =
  if scalar_eqb k k' then Some v else dict_get d k'.
Proof.
  induction d as [| [k0 v0] d IH]; simpl.
  - destruct (scalar_eqb k k'); reflexivity.
  - destruct (scalar_eqb k0 k) eqn:E0; simpl.
    + rewrite (scalar_eqb_sym k k').
      rewrite <- (scalar_eqb_congr _ _ k' E0).
      rewrite (scalar_eqb_sym k' k0).
      destruct (scalar_eqb k0 k'); reflexivity.
    + rewrite IH. destruct (scalar_eqb k0 k') eqn:E1; [| reflexivity].
      destruct (scalar_eqb k k') eqn:E2; [| reflexivity].
      rewrite scalar_eqb_sym in E2.
      rewrite (scalar_eqb_trans _ _ _ E1 E2) in E0. discriminate E0.
Qed.

Lemma dict_set_set d k v v' :
  dict_set (dict_set d k v) k v' = dict_set d k v'.
Proof.
  induction d as [| [k0 v0] d IH]; simpl.
  - rewrite scalar_eqb_refl. reflexivity.
  - destruct (scalar_eqb k0 k) eqn:E0; simpl; rewrite E0.
    + reflexivity.
    + rewrite IH. reflexivity.
Qed.

Lemma distinct_keys_set d k v :
  distinct_keys d -> distinct_keys (dict_set d k v).
Proof.
  induction d as [| [k0 v0] d IH]; simpl.
  - intros _. split; [reflexivity | exact I].
  - intros [Hn Hd]. destruct (scalar_eqb k0 k) eqn:E0; simpl.
    + split; assumption.
    + split; [| apply IH; exact Hd].
      rewrite dict_get_set. rewrite scalar_eqb_sym, E0. exact Hn.
Qed.

Lemma dict_get_In d k v : dict_get d k = Some v ->
  exists k0, In (k0, v) d /\ scalar_eqb k0 k = true.
Proof.
  induction d as [| [k0 v0] d IH]; simpl; [discriminate |].
  destruct (scalar_eqb k0 k) eqn:E0.
  - intros H. injection H as <-. exists k0. auto.
  - intros H. destruct (IH H) as [k1 [Hin He]]. exists k1. auto.
Qed.

Lemma In_dict_get d k v :
  distinct_keys d -> In (k, v) d -> dict_get d k = Some v.
Proof.
  induction d as [| [k0 v0] d IH]; simpl; [intros _ [] |].
  intros [Hn Hd] [Heq | Hin].
  - injection Heq as -> ->. rewrite scalar_eqb_refl. reflexivity.
  - destruct (scalar_eqb k0 k) eqn:E0.
    + rewrite (dict_get_congr d _ _ E0) in Hn.
      rewrite (IH Hd Hin) in Hn. discriminate Hn.
    + apply IH; assumption.
Qed.

Lemma dict_mutate_held d k v c :
  dict_get d k = Some c -> dict_mutate d k v = dict_set d k v.
Proof.
  induction d as [| [k0 v0] d IH]; simpl; [discriminate |].
  destruct (scalar_eqb k0 k); [reflexivity |].
  intros H. rewrite (IH H). reflexivity.
Qed.

Lemma dict_mutate_absent d k v :
  dict_get d k = None -> dict_mutate d k v = d.
Proof.
  induction d as [| [k0 v0] d IH]; simpl; [reflexivity |].
  destruct (scalar_eqb k0 k); [discriminate |].
  intros H. rewrite (IH H). reflexivity.
Qed.

Lemma dict_set_absent d k v :
  dict_get d k = None -> dict_set d k v = d ++ [(k, v)].
Proof.
  induction d as [| [k0 v0] d IH]; simpl; [reflexivity |].
  destruct (scalar_eqb k0 k); [discriminate |].
  intros H. rewrite (IH H). reflexivity.
Qed.

(** Stored keys of a dictionary, in insertion order. *)
Lemma In_dict_set d k v p :
  In p (dict_set d k v) ->
  (snd p = v /\ scalar_eqb (fst p) k = true) \/ In p d.
Proof.
  induction d as [| [k0 v0] d IH]; simpl.
  - intros [<- | []]. left. simpl. split; [| apply scalar_eqb_refl].
    reflexivity.
  - destruct (scalar_eqb k0 k) eqn:E0; simpl.
    + intros [<- | Hin]; [left | right; right]; auto.
    + intros [<- | Hin]; [right; left; reflexivity |].
      destruct (IH Hin) as [Hl | Hr]; [left | right; right]; auto.
Qed.
End Dict.

End DictFacts.

Import DictFacts.

(* ================================================================== *)
(** ** The builder *)
(* ================================================================== *)

Module BuilderFacts.

Lemma set_columns_same self : set_columns self (columns self) = self.
Proof. destruct self; reflexivity. Qed.

Lemma add_test_Ok self v t k :
  as_key v = Ok k ->
  add_test self v t = Ok (set_columns self (record (columns self) (k, t))).
Proof.
  intros Hk. unfold add_test, get_column, record, name_at, tests_at.
  rewrite Hk. simpl.
  destruct (dict_get (columns self) k) as [c |] eqn:G; simpl.
  - rewrite (dict_mutate_held _ _ _ G). reflexivity.
  - rewrite (@dict_mutate_held _ (dict_set (columns self) k (mkColumn k []))
               k _ (mkColumn k []));
      [| rewrite dict_get_set, scalar_eqb_refl; reflexivity].
    rewrite dict_set_set. reflexivity.
Qed.

Lemma add_test_Err self v t e :
  as_key v = Err e -> add_test self v t = Err e.
Proof.
  intros Hk. unfold add_test, get_column. rewrite Hk. reflexivity.
Qed.

Lemma as_key_Ok v k : as_key v = Ok k -> v = VScalar k.
Proof. destruct v; simpl; intros H; congruence. Qed.

(** *** [get_column] is idempotent *)

Lemma get_column_idempotent self v c self1 :
  get_column self v = Ok (c, self1) ->
  get_column self1 v = Ok (c, self1).
Proof.
  unfold get_column. destruct (as_key v) as [k | e]; simpl; [| discriminate].
  destruct (dict_get (columns self) k) as [c0 |] eqn:G; intros H;
    injection H as <- <-.
  - rewrite G. reflexivity.
  - simpl. rewrite dict_get_set, scalar_eqb_refl. reflexivity.
Qed.

(** *** The handlers replay the declarations *)

Lemma handle_simple_column_spec vs test_name : forall self self',
  handle_simple_column self vs test_name = Ok self' ->
  self' = set_columns self
            (record_all (columns self)
               (flat_map (simple_declaration test_name) vs)).
Proof.
  induction vs as [| v vs IH]; simpl; intros self self' H.
  - injection H as <-. symmetry. apply set_columns_same.
  - bind_inv H as self1 H1.
    destruct (as_key v) as [k | e] eqn:Hk.
    + rewrite (add_test_Ok _ _ _ Hk) in H1. injection H1 as <-.
      rewrite (IH _ _ H). apply as_key_Ok in Hk. subst v. reflexivity.
    + rewrite (add_test_Err _ _ _ Hk) in H1. discriminate H1.
Qed.

Lemma handle_complex_loop_spec column_key vs test_name : forall self self',
  handle_complex_loop self column_key vs test_name = Ok self' ->
  self' = set_columns self
            (record_all (columns self)
               (flat_map (complex_declaration column_key test_name) vs)).
Proof.
  induction vs as [| dct vs IH]; simpl; intros self self' H.
  - injection H as <-. symmetry. apply set_columns_same.
  - bind_inv H as present Hin.
    destruct present; simpl in H; [| discriminate H].
    bind_inv H as column_name Hget.
    bind_inv H as items Hitems.
    bind_inv H as self1 H1.
    destruct dct as [x | l | d]; simpl in Hget; try discriminate Hget.
    simpl in Hitems. injection Hitems as <-.
    destruct (dict_get d (SStr column_key)) as [v |] eqn:G;
      [| discriminate Hget].
    injection Hget as <-.
    destruct (as_key v) as [k | e] eqn:Hk.
    + rewrite (add_test_Ok _ _ _ Hk) in H1. injection H1 as <-.
      rewrite (IH _ _ H). apply as_key_Ok in Hk. subst v.
      unfold complex_declaration at 2. rewrite G. reflexivity.
    + rewrite (add_test_Err _ _ _ Hk) in H1. discriminate H1.
Qed.

Lemma populate_test_spec self test_name test_values self' :
  populate_test self test_name test_values = Ok self' ->
  self' = set_columns self
            (record_all (columns self)
               (declarations_of test_name test_values)).
Proof.
  unfold populate_test, declarations_of.
  destruct test_values as [x | vs | d]; try discriminate.
  destruct (in_SIMPLE test_name).
  - apply handle_simple_column_spec.
  - destruct (in_COMPLEX test_name); [| discriminate].
    unfold handle_complex_column.
    destruct (dict_get COMPLEX_COLUMN_TESTS test_name) as [ck |];
      [| discriminate].
    apply handle_complex_loop_spec.
Qed.

Lemma record_all_app cols l1 l2 :
  record_all cols (l1 ++ l2) = record_all (record_all cols l1) l2.
Proof. apply fold_left_app. Qed.

Lemma populate_loop_spec items : forall self self',
  populate_loop self items = Ok self' ->
  self' = set_columns self
            (record_all (columns self) (declared_tests items)).
Proof.
  induction items as [| [tn tv] items IH]; simpl; intros self self' H.
  - injection H as <-. symmetry. apply set_columns_same.
  - bind_inv H as self1 H1.
    rewrite (IH _ _ H). rewrite (populate_test_spec _ _ _ H1).
    simpl. rewrite record_all_app. reflexivity.
Qed.

(** *** The column dictionary after a run of declarations *)

Lemma tests_at_congr cols k k' :
  scalar_eqb k k' = true -> tests_at cols k = tests_at cols k'.
Proof.
  intros H. unfold tests_at. rewrite (dict_get_congr cols _ _ H).
  reflexivity.
Qed.

Lemma tests_at_record cols p n :
  tests_at (record cols p) n =
  if scalar_eqb (fst p) n then tests_at cols n ++ [snd p]
  else tests_at cols n.
Proof.
  unfold record. unfold tests_at at 1. rewrite dict_get_set.
  destruct (scalar_eqb (fst p) n) eqn:E; [| reflexivity].
  simpl. rewrite (tests_at_congr cols _ _ E). reflexivity.
Qed.

Theorem tests_at_record_all log : forall cols n,
  tests_at (record_all cols log) n = tests_at cols n ++ entries_for n log.
Proof.
  unfold record_all, entries_for.
  induction log as [| p log IH]; simpl; intros cols n.
  - rewrite app_nil_r. reflexivity.
  - rewrite IH, tests_at_record.
    destruct (scalar_eqb (fst p) n); simpl; [| reflexivity].
    rewrite <- app_assoc. reflexivity.
Qed.

Lemma well_named_record cols p : well_named cols -> well_named (record cols p).
Proof.
  unfold record, well_named. destruct p as [k t]. simpl.
  generalize (tests_at cols k ++ [t]) as ts.
  induction cols as [| [k0 c0] cols IH]; simpl; intros ts Hw.
  - constructor; [reflexivity | constructor].
  - inversion Hw as [| ? ? Hhd Htl]; subst. simpl in Hhd.
    unfold name_at. simpl. destruct (scalar_eqb k0 k) eqn:E.
    + constructor; [exact Hhd | exact Htl].
    + constructor; [exact Hhd | apply IH; exact Htl].
Qed.

Lemma distinct_keys_record cols p :
  distinct_keys cols -> distinct_keys (record cols p).
Proof. apply distinct_keys_set. Qed.

Lemma columns_ok_nil : columns_ok [].
Proof. split; [constructor | exact I]. Qed.

Lemma columns_ok_record_all log : forall cols,
  columns_ok cols -> columns_ok (record_all cols log).
Proof.
  unfold record_all. induction log as [| p log IH]; simpl; intros cols H.
  - exact H.
  - apply IH. destruct H as [Hw Hd]. split.
    + apply well_named_record; exact Hw.
    + apply distinct_keys_record; exact Hd.
Qed.

Lemma columns_ok_lookup cols k c :
  columns_ok cols -> In (k, c) cols ->
  name c = k /\ tests c = tests_at cols k.
Proof.
  intros [Hw Hd] Hin. split.
  - unfold well_named in Hw. rewrite Forall_forall in Hw.
    exact (Hw _ Hin).
  - unfold tests_at. rewrite (In_dict_get _ _ _ Hd Hin). reflexivity.
Qed.

(** A column exists exactly when some declaration names it. *)
Lemma dict_mem_record cols p n :
  dict_mem (record cols p) n = scalar_eqb (fst p) n || dict_mem cols n.
Proof.
  unfold record, dict_mem. rewrite dict_get_set.
  destruct (scalar_eqb (fst p) n); reflexivity.
Qed.

Lemma dict_mem_record_all log : forall cols n,
  dict_mem (record_all cols log) n =
  dict_mem cols n || existsb (fun p => scalar_eqb (fst p) n) log.
Proof.
  unfold record_all. induction log as [| p log IH]; simpl; intros cols n.
  - rewrite orb_false_r. reflexivity.
  - rewrite IH, dict_mem_record.
    destruct (scalar_eqb (fst p) n), (dict_mem cols n); reflexivity.
Qed.

End BuilderFacts.

Import BuilderFacts.

(* ================================================================== *)
(** ** Lists: two small facts *)
(* ================================================================== *)

Lemma Permutation_filter (A : Type) (f : A -> bool) (l l' : list A) :
  Permutation l l' -> Permutation (filter f l) (filter f l').
Proof.
  induction 1 as [| x l l' _ IH | x y l | l l' l'' _ IH1 _ IH2]; simpl.
  - apply perm_nil.
  - destruct (f x); [apply perm_skip |]; exact IH.
  - destruct (f x), (f y); try apply Permutation_refl. apply perm_swap.
  - eapply perm_trans; eassumption.
Qed.

Lemma Forall2_In_r (A B : Type) (R : A -> B -> Prop) l l' y :
  Forall2 R l l' -> In y l' -> exists x, In x l /\ R x y.
Proof.
  induction 1 as [| x0 y0 l l' HR _ IH]; simpl; [intros [] |].
  intros [<- | Hin].
  - exists x0. auto.
  - destruct (IH Hin) as [x [Hx HRx]]. exists x. auto.
Qed.

Lemma Forall2_In_l (A B : Type) (R : A -> B -> Prop) l l' x :
  Forall2 R l l' -> In x l -> exists y, In y l' /\ R x y.
Proof.
  induction 1 as [| x0 y0 l l' HR _ IH]; simpl; [intros [] |].
  intros [<- | Hin].
  - exists y0. auto.
  - destruct (IH Hin) as [y [Hy HRy]]. exists y. auto.
Qed.

(* ================================================================== *)
(** ** From the builder to the model record *)
(* ================================================================== *)

Module ModelFacts.

Lemma sort_tests_loop_spec sorted : forall acc out,
  sort_tests_loop sorted acc = Ok out ->
  exists out', out = acc ++ out' /\ Forall2 tests_sorted_of sorted out'.
Proof.
  induction sorted as [| c sorted IH]; simpl; intros acc out H.
  - injection H as <-. exists []. rewrite app_nil_r. split; constructor.
  - bind_inv H as ts Hts. destruct (IH _ _ H) as [out' [-> HF]].
    exists (mkColumn (name c) ts :: out'). split.
    + rewrite <- app_assoc. reflexivity.
    + constructor; [| exact HF]. split; [reflexivity | exact Hts].
Qed.

Lemma sorted_column_list_spec column_dict out :
  sorted_column_list column_dict = Ok out ->
  exists sorted,
    py_sorted (fun c => Ok (name c)) (map snd column_dict) = Ok sorted /\
    Forall2 tests_sorted_of sorted out.
Proof.
  unfold sorted_column_list. intros H. bind_inv H as sorted Hs.
  exists sorted. split; [exact Hs |].
  destruct (sort_tests_loop_spec _ _ H) as [out' [-> HF]]. exact HF.
Qed.

Lemma built_from_anatomy model_name cs m :
  built_from model_name cs m ->
  m_name m = model_name /\ m_tests m = None /\
  (m_columns m = None <-> final_columns cs = []) /\
  exists sorted,
    py_sorted (fun c => Ok (name c)) (map snd (final_columns cs))
      = Ok sorted /\
    Forall2 tests_sorted_of sorted (model_columns m).
Proof.
  intros [b [Hp Hg]]. apply populate_loop_spec in Hp. subst b.
  unfold generate_model_dict in Hg. simpl in Hg.
  fold (final_columns cs) in Hg.
  destruct (final_columns cs) as [| p cols] eqn:Hc.
  - injection Hg as <-. simpl. repeat split; try reflexivity.
    exists []. split; [reflexivity | constructor].
  - bind_inv Hg as out Hout. injection Hg as <-. simpl.
    repeat split; try discriminate.
    unfold model_columns.
    exact (sorted_column_list_spec _ Hout).
Qed.

Lemma final_columns_ok cs : columns_ok (final_columns cs).
Proof. apply columns_ok_record_all. apply columns_ok_nil. Qed.

Lemma final_tests_at cs n :
  tests_at (final_columns cs) n = entries_for n (declared_tests cs).
Proof. unfold final_columns. rewrite tests_at_record_all. reflexivity. Qed.

(** Each column of the record holds the sorted list of the entries declared
    for it. *)
Theorem built_from_column model_name cs m c :
  built_from model_name cs m -> In c (model_columns m) ->
  py_sorted sort_keyfunc (entries_for (name c) (declared_tests cs))
    = Ok (tests c).
Proof.
  intros Hb Hin.
  destruct (built_from_anatomy Hb) as [_ [_ [_ [sorted [Hs HF]]]]].
  destruct (Forall2_In_r _ HF Hin) as [c0 [Hc0 [Hn Ht]]].
  apply py_sorted_perm in Hs.
  apply (Permutation_in _ (Permutation_sym Hs)) in Hc0.
  apply in_map_iff in Hc0. destruct Hc0 as [[k c1] [Heq Hin1]].
  simpl in Heq. subst c1.
  destruct (columns_ok_lookup _ _ (final_columns_ok cs) Hin1) as [Hk Htk].
  rewrite Hn, Hk, <- final_tests_at, <- Htk. exact Ht.
Qed.

(** *** The names of the columns *)

Lemma absent_count (V : Type) (d : list (scalar * V)) k n :
  dict_get d k = None -> scalar_eqb k n = true ->
  filter (same_key n) (map fst d) = [].
Proof.
  intros Hg Hk. induction d as [| [k1 v1] d IH]; simpl in *; [reflexivity |].
  unfold same_key at 1. rewrite <- (scalar_eqb_congr _ _ k1 Hk).
  destruct (scalar_eqb k1 k); [discriminate Hg |]. apply IH. exact Hg.
Qed.

Lemma count_keys (V : Type) (d : list (scalar * V)) n :
  distinct_keys d ->
  List.length (filter (same_key n) (map fst d)) =
  if dict_mem d n then 1 else 0.
Proof.
  induction d as [| [k0 v0] d IH]; simpl; [reflexivity |].
  intros [Hn Hd]. unfold dict_mem. simpl. unfold same_key at 1.
  destruct (scalar_eqb k0 n) eqn:E; simpl.
  - rewrite (absent_count d _ _ Hn E). reflexivity.
  - apply IH. exact Hd.
Qed.

Lemma well_named_names cols :
  well_named cols -> map name (map snd cols) = map fst cols.
Proof.
  induction 1 as [| [k c] cols Hhd _ IH]; simpl; [reflexivity |].
  simpl in Hhd. rewrite Hhd, IH. reflexivity.
Qed.

Lemma Forall2_names sorted out :
  Forall2 tests_sorted_of sorted out -> map name out = map name sorted.
Proof.
  induction 1 as [| c c' l l' [Hn _] _ IH]; simpl; [reflexivity |].
  rewrite Hn, IH. reflexivity.
Qed.

Lemma sorted_by_name_key_le (l : list column) :
  StronglySorted (le_by_key (fun c => Ok (name c))) l ->
  StronglySorted key_le (map name l).
Proof.
  induction 1 as [| c l _ IH Hall]; simpl; constructor.
  - exact IH.
  - rewrite Forall_map. eapply Forall_impl; [| exact Hall].
    intros c' [ka [kb [Ha [Hb Hle]]]].
    injection Ha as <-. injection Hb as <-. exact Hle.
Qed.

Lemma count_ge_1 n (l : list scalar) x :
  In x l -> same_key n x = true ->
  1 <= List.length (filter (same_key n) l).
Proof.
  induction l as [| y l IH]; simpl; [intros [] |].
  intros [-> | Hin] Hx.
  - rewrite Hx. simpl. lia.
  - destruct (same_key n y); simpl; [lia | apply IH; assumption].
Qed.

(** A sorted list without equal keys is strictly sorted. *)
Lemma strictly_sorted (l : list scalar) :
  StronglySorted key_le l ->
  (forall n, List.length (filter (same_key n) l) <= 1) ->
  StronglySorted key_lt l.
Proof.
  induction 1 as [| x l _ IH Hall]; intros Hcount; constructor.
  - apply IH. intros n. specialize (Hcount n). simpl in Hcount.
    destruct (same_key n x); simpl in Hcount; lia.
  - rewrite Forall_forall in *. intros y Hy.
    apply key_le_neq_lt; [exact (Hall _ Hy) |].
    destruct (scalar_eqb x y) eqn:E; [| reflexivity].
    exfalso. specialize (Hcount y). simpl in Hcount.
    unfold same_key at 1 in Hcount. rewrite E in Hcount. simpl in Hcount.
    assert (Hy' : same_key y y = true) by apply scalar_eqb_refl.
    pose proof (count_ge_1 y l y Hy Hy'). lia.
Qed.

Lemma built_from_names_perm model_name cs m :
  built_from model_name cs m ->
  Permutation (map fst (final_columns cs)) (map name (model_columns m)).
Proof.
  intros Hb.
  destruct (built_from_anatomy Hb) as [_ [_ [_ [sorted [Hs HF]]]]].
  rewrite (Forall2_names HF).
  rewrite <- (well_named_names (proj1 (final_columns_ok cs))).
  apply Permutation_map. exact (py_sorted_perm _ _ Hs).
Qed.

(** Exactly one column per declared name, none for the others. *)
Theorem built_from_name_count model_name cs m n :
  built_from model_name cs m ->
  List.length (filter (same_key n) (map name (model_columns m))) =
  if existsb (fun p => scalar_eqb (fst p) n) (declared_tests cs)
  then 1 else 0.
Proof.
  intros Hb.
  rewrite <- (Permutation_length
                (Permutation_filter (same_key n)
                   (built_from_names_perm Hb))).
  rewrite (count_keys _ n (proj2 (final_columns_ok cs))).
  unfold final_columns. rewrite dict_mem_record_all. reflexivity.
Qed.

Theorem built_from_names_sorted model_name cs m :
  built_from model_name cs m ->
  StronglySorted key_lt (map name (model_columns m)).
Proof.
  intros Hb. apply strictly_sorted.
  - destruct (built_from_anatomy Hb) as [_ [_ [_ [sorted [Hs HF]]]]].
    rewrite (Forall2_names HF). apply sorted_by_name_key_le.
    exact (py_sorted_sorted _ _ Hs).
  - intros n. rewrite (built_from_name_count n Hb).
    destruct (existsb _ _); lia.
Qed.

End ModelFacts.

Import ModelFacts.

(* ================================================================== *)
(** ** The loop of [convert_schema] *)
(* ================================================================== *)

Module ConvertFacts.

Lemma convert_loop_spec items : forall acc ms,
  convert_loop items acc = Ok ms ->
  exists ms',
    ms = acc ++ ms' /\
    Forall2 converted (filter has_constraints items) ms'.
Proof.
  induction items as [| [n data] items IH]; simpl; intros acc ms H.
  - injection H as <-. exists []. rewrite app_nil_r. split; constructor.
  - bind_inv H as present Hin. unfold has_constraints at 1. simpl.
    rewrite Hin. destruct present; simpl in H.
    + bind_inv H as constraints Hget.
      bind_inv H as builder1 Hpop.
      bind_inv H as m Hgen.
      destruct (IH _ _ H) as [ms' [-> HF]].
      exists (m :: ms'). split.
      * rewrite <- app_assoc. reflexivity.
      * constructor; [| exact HF].
        unfold populate_from_constraints in Hpop.
        bind_inv Hpop as cs Hcs.
        destruct constraints as [x | l | d]; try discriminate Hcs.
        injection Hcs as <-.
        exists d. split; [exact Hget |].
        exists builder1. split; assumption.
    + apply IH. exact H.
Qed.

Theorem convert_schema_spec initial out :
  convert_schema initial = Ok out ->
  exists items,
    initial = VDict items /\ version out = 2%Z /\
    Forall2 converted (filter has_constraints items) (models out).
Proof.
  unfold convert_schema. intros H.
  bind_inv H as items Hitems. bind_inv H as ms Hloop.
  injection H as <-.
  destruct initial as [x | l | d]; try discriminate Hitems.
  injection Hitems as <-.
  exists d. repeat split.
  destruct (convert_loop_spec _ _ Hloop) as [ms' [-> HF]]. exact HF.
Qed.

(** Every record of the output is built from an item of the input that has
    constraints. *)
Lemma models_origin initial out m :
  convert_schema initial = Ok out -> In m (models out) ->
  exists items model_data cs,
    initial = VDict items /\
    In (m_name m, model_data) items /\
    py_getitem model_data "constraints" = Ok (VDict cs) /\
    built_from (m_name m) cs m.
Proof.
  intros H Hin.
  destruct (convert_schema_spec _ H) as [items [-> [_ HF]]].
  destruct (Forall2_In_r _ HF Hin) as [[n data] [Hitem [cs [Hget Hb]]]].
  apply filter_In in Hitem. destruct Hitem as [Hitem _].
  simpl in *.
  destruct (built_from_anatomy Hb) as [Hname _]. rewrite Hname.
  exists items, data, cs. repeat split; assumption.
Qed.

(** *** Failure is final *)

Lemma raises_bind (A B : Type) (m : res A) (f : A -> res B) :
  (forall a, m = Ok a -> raises (f a)) -> raises (bind m f).
Proof.
  destruct m as [a | e]; simpl; intros H; [apply H; reflexivity | exact I].
Qed.

Lemma populate_loop_raises test_name test_values items :
  In (test_name, test_values) items ->
  (forall b, raises (populate_test b test_name test_values)) ->
  forall self, raises (populate_loop self items).
Proof.
  intros Hin Hr. induction items as [| [tn tv] items IH]; simpl in *;
    [destruct Hin |].
  intros self. destruct Hin as [Heq | Hin].
  - injection Heq as -> ->. apply bind_raises_l. apply Hr.
  - apply raises_bind. intros self1 _. apply IH. exact Hin.
Qed.

(** A model whose constraints cannot be populated aborts the conversion. *)
Lemma convert_loop_raises model_name model_data cs items :
  In (model_name, model_data) items ->
  py_in "constraints" model_data = Ok true ->
  py_getitem model_data "constraints" = Ok (VDict cs) ->
  (forall b, raises (populate_loop b cs)) ->
  forall acc, raises (convert_loop items acc).
Proof.
  intros Hin Hpresent Hget Hr.
  induction items as [| [n data] items IH]; simpl in *; [destruct Hin |].
  intros acc. destruct Hin as [Heq | Hin].
  - injection Heq as -> ->. rewrite Hpresent, Hget. simpl.
    apply bind_raises_l. apply Hr.
  - apply raises_bind. intros present _.
    destruct present; simpl; [| apply IH; exact Hin].
    apply raises_bind. intros constraints _.
    apply raises_bind. intros builder1 _.
    apply raises_bind. intros m _. apply IH. exact Hin.
Qed.

Lemma convert_schema_raises model_name model_data cs items :
  In (model_name, model_data) items ->
  py_in "constraints" model_data = Ok true ->
  py_getitem model_data "constraints" = Ok (VDict cs) ->
  (forall b, raises (populate_loop b cs)) ->
  raises (convert_schema (VDict items)).
Proof.
  intros Hin Hpresent Hget Hr. unfold convert_schema. simpl.
  apply bind_raises_l.
  exact (convert_loop_raises _ _ _ Hin Hpresent Hget Hr []).
Qed.

End ConvertFacts.

Import ConvertFacts.

(* ================================================================== *)
(** ** Vocabulary of the specification *)
(* ================================================================== *)

Module SpecFacts.

(** Opens the membership tests of the two tables on a string kind. *)
Ltac open_tables :=
  unfold in_SIMPLE, in_COMPLEX, dict_mem, SIMPLE_COLUMN_TESTS,
    COMPLEX_COLUMN_TESTS in *;
  cbn [dict_get existsb scalar_eqb as_number orb] in *.

Lemma unknown_kind test_name :
  ~ In test_name known_kinds ->
  in_SIMPLE test_name = false /\ in_COMPLEX test_name = false.
Proof.
  intros Hn. destruct test_name as [| b | z | s]; try (split; reflexivity).
  assert (H1 : s <> "unique") by (intros ->; apply Hn; simpl; auto).
  assert (H2 : s <> "not_null") by (intros ->; apply Hn; simpl; auto).
  assert (H3 : s <> "relationships") by (intros ->; apply Hn; simpl; auto).
  assert (H4 : s <> "accepted_values")
    by (intros ->; apply Hn; simpl; auto 6).
  open_tables.
  destruct (String.eqb_spec "unique" s); [congruence |].
  destruct (String.eqb_spec "not_null" s); [congruence |].
  destruct (String.eqb_spec "relationships" s); [congruence |].
  destruct (String.eqb_spec "accepted_values" s); [congruence |].
  split; reflexivity.
Qed.

(** A complex kind is never a simple one. *)
Lemma complex_kind test_name column_key :
  dict_get COMPLEX_COLUMN_TESTS test_name = Some column_key ->
  in_SIMPLE test_name = false /\ in_COMPLEX test_name = true.
Proof.
  intros H. split.
  - destruct test_name as [| b | z | s]; try reflexivity.
    open_tables.
    destruct (String.eqb_spec "relationships" s) as [<- | _];
      [reflexivity |].
    destruct (String.eqb_spec "accepted_values" s) as [<- | _];
      [reflexivity | discriminate H].
  - unfold in_COMPLEX, dict_mem. rewrite H. reflexivity.
Qed.

Lemma constraints_of_Some model_data cs :
  constraints_of model_data = Some cs ->
  py_in "constraints" model_data = Ok true /\
  py_getitem model_data "constraints" = Ok (VDict cs).
Proof.
  unfold constraints_of. destruct model_data as [x | l | d]; try discriminate.
  simpl. unfold dict_mem.
  destruct (dict_get d (SStr "constraints")) as [[x | l | cs'] |];
    try discriminate.
  intros H. injection H as <-. split; reflexivity.
Qed.

End SpecFacts.

Import SpecFacts.

(* ================================================================== *)
(** ** The conversion succeeds on the documents of the data model *)
(* ================================================================== *)

Module Totality.

Section SortSucceeds.
Variable A : Type.

(** A class of keys on which [<] is defined. *)
Variable C : scalar -> Prop.
Hypothesis C_comparable :
  forall k k', C k -> C k' -> exists b, py_lt k k' = Ok b.

Lemma insert_class k (x : A) l :
  C k -> Forall (fun p => C (fst p)) l -> exists r, insert k x l = Ok r.
Proof.
  intros Hk. induction l as [| [k' y] l IH]; simpl; intros Hl.
  - eexists. reflexivity.
  - inversion Hl as [| ? ? Hk' Hl']; subst. simpl in Hk'.
    destruct (C_comparable Hk' Hk) as [b ->]. simpl. destruct b.
    + destruct (IH Hl') as [r ->]. simpl. eexists. reflexivity.
    + eexists. reflexivity.
Qed.

Lemma sort_keyed_class (l : list (scalar * A)) :
  Forall (fun p => C (fst p)) l -> exists r, sort_keyed l = Ok r.
Proof.
  induction l as [| [k x] l IH]; simpl; intros Hl.
  - eexists. reflexivity.
  - inversion Hl as [| ? ? Hk Hl']; subst.
    destruct (IH Hl') as [r Hr]. rewrite Hr. simpl.
    apply insert_class; [exact Hk |].
    exact (Permutation_Forall (sort_keyed_perm _ Hr) Hl').
Qed.
End SortSucceeds.

Lemma str_key_comparable k k' :
  str_key k -> str_key k' -> exists b, py_lt k k' = Ok b.
Proof. intros [s ->] [t ->]. simpl. eexists. reflexivity. Qed.

Lemma num_key_comparable k k' :
  num_key k -> num_key k' -> exists b, py_lt k k' = Ok b.
Proof.
  intros [a Ha] [b Hb]. rewrite (py_lt_num _ _ Ha Hb). eexists. reflexivity.
Qed.

Lemma key_le_same_class k k' :
  key_le k k' -> (str_key k /\ str_key k') \/ (num_key k /\ num_key k').
Proof.
  unfold key_le. intros H.
  destruct (py_lt_comparable _ _ H) as [t s | y x b a Hb Ha].
  - left. split; eexists; reflexivity.
  - right. split; eexists; eassumption.
Qed.

Lemma str_num_disjoint k : str_key k -> num_key k -> False.
Proof. intros [s ->] [z Hz]. discriminate Hz. Qed.

Section SortFails.
Variable A : Type.

(** The sort returns exactly on the lists that Python sorts. *)
Theorem sort_keyed_returns_iff (l : list (scalar * A)) :
  (exists r, sort_keyed l = Ok r) <->
  (List.length l <= 1 \/ uniform_keys (map fst l)).
Proof.
  split.
  - intros [r Hr]. pose proof (sort_keyed_perm _ Hr) as Hp.
    pose proof (sort_keyed_sorted _ Hr) as Hs.
    destruct r as [| [k x] [| [k' y] r]].
    + left. rewrite (Permutation_length Hp). simpl. lia.
    + left. rewrite (Permutation_length Hp). simpl. lia.
    + right. inversion Hs as [| ? ? _ Hall]; subst.
      assert (Hu : uniform_keys (map fst ((k, x) :: (k', y) :: r))).
      { inversion Hall as [| ? ? Hkk' _]; subst.
        unfold le_fst in Hkk'. simpl in Hkk'.
        destruct (key_le_same_class Hkk') as [[Hk _] | [Hk _]].
        - left. simpl. constructor; [exact Hk |].
          change (Forall str_key (map fst ((k', y) :: r))).
          rewrite Forall_map. eapply Forall_impl; [| exact Hall].
          intros q Hq. unfold le_fst in Hq. simpl in Hq.
          destruct (key_le_same_class Hq) as [[_ Hq'] | [Hn _]];
            [exact Hq' | exfalso; exact (str_num_disjoint Hk Hn)].
        - right. simpl. constructor; [exact Hk |].
          change (Forall num_key (map fst ((k', y) :: r))).
          rewrite Forall_map. eapply Forall_impl; [| exact Hall].
          intros q Hq. unfold le_fst in Hq. simpl in Hq.
          destruct (key_le_same_class Hq) as [[Hn _] | [_ Hq']];
            [exfalso; exact (str_num_disjoint Hn Hk) | exact Hq']. }
      pose proof (Permutation_map fst (Permutation_sym Hp)) as Hp'.
      destruct Hu as [Hu | Hu]; [left | right];
        exact (Permutation_Forall Hp' Hu).
  - intros [Hlen | [Hu | Hu]].
    + destruct l as [| [k x] [| p l]]; simpl in *;
        try (eexists; reflexivity). lia.
    + apply (@sort_keyed_class A str_key str_key_comparable).
      rewrite Forall_map in Hu. exact Hu.
    + apply (@sort_keyed_class A num_key num_key_comparable).
      rewrite Forall_map in Hu. exact Hu.
Qed.
End SortFails.

Section StringKeys.
Variable A : Type.

Lemma sort_keyed_str (l : list (scalar * A)) :
  Forall (fun p => str_key (fst p)) l -> exists r, sort_keyed l = Ok r.
Proof. apply (@sort_keyed_class A str_key str_key_comparable). Qed.

Variable key : A -> res scalar.

Lemma keys_of_str (l : list A) :
  Forall (fun a => exists s, key a = Ok (SStr s)) l ->
  exists kl, keys_of key l = Ok kl /\ Forall (fun p => str_key (fst p)) kl.
Proof.
  induction 1 as [| a l [s Hs] _ [kl [Hkl Hall]]]; simpl.
  - exists []. split; [reflexivity | constructor].
  - rewrite Hs, Hkl. simpl. eexists. split; [reflexivity |].
    constructor; [exists s; reflexivity | exact Hall].
Qed.

Lemma py_sorted_str (l : list A) :
  Forall (fun a => exists s, key a = Ok (SStr s)) l ->
  exists r, py_sorted key l = Ok r.
Proof.
  intros H. unfold py_sorted.
  destruct (keys_of_str H) as [kl [-> Hkl]]. simpl.
  destruct (sort_keyed_str Hkl) as [r ->]. simpl.
  eexists. reflexivity.
Qed.
End StringKeys.

Lemma known_kind_cases test_name :
  In test_name known_kinds ->
  (in_SIMPLE test_name = true /\ str_key test_name) \/
  (exists column_key,
     dict_get COMPLEX_COLUMN_TESTS test_name = Some column_key /\
     str_key test_name).
Proof.
  simpl. intros [<- | [<- | [<- | [<- | []]]]].
  - left. split; [reflexivity | eexists; reflexivity].
  - left. split; [reflexivity | eexists; reflexivity].
  - right. eexists. split; [reflexivity | eexists; reflexivity].
  - right. eexists. split; [reflexivity | eexists; reflexivity].
Qed.

Lemma declarations_ok test_name test_values :
  constraint_ok (test_name, test_values) ->
  Forall decl_ok (declarations_of test_name test_values).
Proof.
  intros [Hkind [vs [Hvs Hall]]]. simpl in Hkind, Hvs, Hall.
  subst test_values. unfold declarations_of. unfold element_ok in Hall.
  destruct (@known_kind_cases _ Hkind) as [[Hs [t ->]] | [ck [Hc [t ->]]]].
  - rewrite Hs in *.
    induction Hall as [| v vs [s ->] _ IH]; simpl; constructor.
    + split; [exists s | exists t]; reflexivity.
    + exact IH.
  - rewrite (proj1 (complex_kind _ Hc)) in *. rewrite Hc in *.
    induction Hall as [| v vs [d [s [-> Hd]]] _ IH]; simpl.
    + constructor.
    + rewrite Hd. simpl. constructor; [| exact IH].
      split; [exists s | exists t]; reflexivity.
Qed.

Lemma declared_tests_ok cs :
  Forall constraint_ok cs -> Forall decl_ok (declared_tests cs).
Proof.
  unfold declared_tests.
  induction 1 as [| [tn tv] cs Hkv _ IH]; simpl; [constructor |].
  apply Forall_app. split; [apply declarations_ok; exact Hkv | exact IH].
Qed.

(** *** The builder accepts the constraints *)

Lemma handle_simple_column_total test_name vs :
  Forall is_name vs ->
  forall self, exists self', handle_simple_column self vs test_name = Ok self'.
Proof.
  induction 1 as [| v vs [s ->] _ IH]; simpl; intros self.
  - eexists. reflexivity.
  - rewrite (add_test_Ok self (VScalar (SStr s)) (Bare test_name) eq_refl).
    simpl. apply IH.
Qed.

Lemma handle_complex_loop_total column_key test_name vs :
  Forall (fun elem =>
            exists d s,
              elem = VDict d /\
              dict_get d (SStr column_key) = Some (VScalar (SStr s))) vs ->
  forall self,
  exists self', handle_complex_loop self column_key vs test_name = Ok self'.
Proof.
  induction 1 as [| v vs [d [s [-> Hd]]] _ IH]; simpl; intros self.
  - eexists. reflexivity.
  - unfold dict_mem. rewrite Hd. simpl.
    rewrite (add_test_Ok self (VScalar (SStr s)) _ eq_refl).
    simpl. apply IH.
Qed.

Lemma populate_test_total self test_name test_values :
  constraint_ok (test_name, test_values) ->
  exists self', populate_test self test_name test_values = Ok self'.
Proof.
  intros [Hkind [vs [Hvs Hall]]]. simpl in Hkind, Hvs, Hall.
  subst test_values. unfold populate_test. unfold element_ok in Hall.
  destruct (@known_kind_cases _ Hkind) as [[Hs _] | [ck [Hc _]]].
  - rewrite Hs in *. apply handle_simple_column_total. exact Hall.
  - destruct (complex_kind _ Hc) as [Hs Hin]. rewrite Hs, Hin in *.
    unfold handle_complex_column. rewrite Hc in *.
    apply handle_complex_loop_total. exact Hall.
Qed.

Lemma populate_loop_total cs :
  Forall constraint_ok cs ->
  forall self, exists self', populate_loop self cs = Ok self'.
Proof.
  induction 1 as [| [tn tv] cs Hkv _ IH]; simpl; intros self.
  - eexists. reflexivity.
  - destruct (populate_test_total self Hkv) as [self1 ->]. simpl. apply IH.
Qed.

(** *** The column dictionary holds string names and string keys *)

Lemma col_ok_record cols p :
  Forall (fun q => col_ok (snd q)) cols -> decl_ok p ->
  Forall (fun q => col_ok (snd q)) (record cols p).
Proof.
  intros Hcols [Hk Ht]. rewrite Forall_forall in *. intros q Hq.
  unfold record in Hq. apply In_dict_set in Hq.
  destruct Hq as [[Hv _] | Hold]; [| apply Hcols; exact Hold].
  rewrite Hv. unfold col_ok, name_at, tests_at. simpl.
  destruct (dict_get cols (fst p)) as [c |] eqn:G.
  - destruct (dict_get_In _ _ G) as [k0 [Hin _]].
    destruct (Hcols _ Hin) as [Hn Hts]. simpl in Hn, Hts. split.
    + exact Hn.
    + apply Forall_app. split; [exact Hts |].
      constructor; [exact Ht | constructor].
  - split; [exact Hk |]. simpl. constructor; [exact Ht | constructor].
Qed.

Lemma col_ok_record_all log : forall cols,
  Forall (fun q => col_ok (snd q)) cols -> Forall decl_ok log ->
  Forall (fun q => col_ok (snd q)) (record_all cols log).
Proof.
  unfold record_all. induction log as [| p log IH]; simpl; intros cols Hc Hl.
  - exact Hc.
  - inversion Hl as [| ? ? Hp Hl']; subst.
    apply IH; [apply col_ok_record; assumption | exact Hl'].
Qed.

(** *** The record is generated *)

Lemma sort_tests_loop_total sorted :
  Forall col_ok sorted ->
  forall acc, exists out, sort_tests_loop sorted acc = Ok out.
Proof.
  induction 1 as [| c sorted [_ Hts] _ IH]; simpl; intros acc.
  - eexists. reflexivity.
  - destruct (py_sorted_str sort_keyfunc Hts) as [ts ->]. simpl. apply IH.
Qed.

Lemma sorted_column_list_total cols :
  Forall (fun q => col_ok (snd q)) cols ->
  exists out, sorted_column_list cols = Ok out.
Proof.
  intros Hc. unfold sorted_column_list.
  assert (Hvals : Forall col_ok (map snd cols))
    by (rewrite Forall_map; exact Hc).
  assert (Hnames : Forall (fun c => exists s,
                             (fun c : column => Ok (name c)) c = Ok (SStr s))
                     (map snd cols)).
  { eapply Forall_impl; [| exact Hvals].
    intros c [[s Hs] _]. exists s. rewrite Hs. reflexivity. }
  destruct (py_sorted_str _ Hnames) as [sorted Hsorted].
  rewrite Hsorted. simpl. apply sort_tests_loop_total.
  exact (Permutation_Forall (py_sorted_perm _ _ Hsorted) Hvals).
Qed.

Lemma model_total model_name cs :
  Forall constraint_ok cs ->
  exists m, built_from model_name cs m.
Proof.
  intros Hcs.
  destruct (populate_loop_total Hcs (new_builder model_name)) as [b Hb].
  pose proof (populate_loop_spec _ _ Hb) as Heq. simpl in Heq.
  assert (Hcols : Forall (fun q => col_ok (snd q)) (columns b)).
  { rewrite Heq. simpl. apply col_ok_record_all; [constructor |].
    apply declared_tests_ok. exact Hcs. }
  assert (Hm : exists m, generate_model_dict b = Ok m).
  { unfold generate_model_dict.
    destruct (columns b) as [| q cols] eqn:Hq.
    - eexists. reflexivity.
    - destruct (sorted_column_list_total Hcols) as [out ->].
      simpl. eexists. reflexivity. }
  destruct Hm as [m Hm]. exists m, b. split; assumption.
Qed.

Lemma convert_loop_total items :
  Forall model_ok items ->
  forall acc, exists ms, convert_loop items acc = Ok ms.
Proof.
  induction 1 as [| [n data] items [d [Hd Hc]] _ IH]; simpl; intros acc.
  - eexists. reflexivity.
  - simpl in Hd. subst data. simpl. unfold dict_mem.
    destruct (dict_get d (SStr "constraints")) as [c |]; simpl;
      [| apply IH].
    destruct Hc as [cs [-> Hcs]]. simpl.
    destruct (model_total n Hcs) as [m [b [Hb Hm]]].
    unfold populate_from_constraints. simpl.
    rewrite Hb. simpl. rewrite Hm. simpl. apply IH.
Qed.

(** X1.  Every document of the data model is converted: when every model
    definition is a mapping whose constraints, if any, map known test kinds
    to lists of column names (simple tests) or of mappings that hold their
    designator key with a column name (complex tests), [convert_schema]
    returns a document. *)
Theorem convert_schema_total initial :
  document_ok initial -> exists out, convert_schema initial = Ok out.
Proof.
  intros [items [-> Hitems]]. unfold convert_schema. simpl.
  destruct (convert_loop_total Hitems []) as [ms ->]. simpl.
  eexists. reflexivity.
Qed.

End Totality.

(* ================================================================== *)
(** ** The sample of the unit test *)
(* ================================================================== *)

(** C1.  On the sample schema of the unit test (model [foo] with
    [not_null], [unique] and [accepted_values] constraints, model [bar] with
    one [not_null] constraint) [convert_schema] returns a document of
    version 2 with exactly two model records: [foo] with the columns
    [email], [favorite_color], [id], [likes_puppies] in this order and the
    expected tests on each, and [bar] with the single column [id] tested by
    [not_null]. *)
Theorem sample_schema_converts :
  convert_schema SAMPLE_SCHEMA = Ok expected_document.
Proof. vm_compute. reflexivity. Qed.

(* ================================================================== *)
(** ** Errors *)
(* ================================================================== *)

(** A test kind outside the known ones, with a list of test values, stops
    at the last branch of [populate_test]. *)
Lemma populate_test_unknown self test_name vs :
  ~ In test_name known_kinds ->
  populate_test self test_name (VList vs)
    = Err (ValueError "cannot handle any other tests").
Proof.
  intros Hn. destruct (unknown_kind Hn) as [Hs Hc].
  unfold populate_test. rewrite Hs, Hc. reflexivity.
Qed.

Lemma populate_test_not_list self test_name test_values :
  (forall vs, test_values <> VList vs) ->
  populate_test self test_name test_values = Err (NameError "model_name").
Proof.
  intros H. destruct test_values as [x | vs | d]; try reflexivity.
  exfalso. exact (H vs eq_refl).
Qed.

Lemma populate_test_unknown_raises self test_name test_values :
  ~ In test_name known_kinds ->
  raises (populate_test self test_name test_values).
Proof.
  intros Hn. destruct test_values as [x | vs | d]; try exact I.
  rewrite (populate_test_unknown self vs Hn). exact I.
Qed.

(** C2 (as the specification states it, refuted).  For the kind
    [foo_bar_test] the exception raised by [populate_test] is neither the
    conversion error nor an exception whose text names the kind. *)
Lemma unknown_kind_error_does_not_name_kind :
  ~ (exists e,
       populate_test (new_builder (SStr "foo")) (SStr "foo_bar_test")
         (VList [vstr "id"]) = Err e /\
       (is_schema_error e = true \/ exn_names e "foo_bar_test" = true)).
Proof.
  intros [e [He Hs]]. vm_compute in He. injection He as <-.
  destruct Hs as [Hs | Hs]; vm_compute in Hs; discriminate Hs.
Qed.

(** C2 (amended).  For a test kind outside [unique], [not_null],
    [relationships] and [accepted_values], [populate_test] called with a
    list of test values raises [ValueError] with the fixed message
    "cannot handle any other tests", which is not the conversion error and
    does not name the kind; and a document in which some model's
    constraints mapping has such a kind is never converted: no output
    document is produced. *)
Theorem unknown_kind_aborts
  (self : ModelTestBuilder) (vs : list value)
  (items : dict) (model_name : scalar) (model_data : value) (cs : dict)
  (test_name : scalar) (test_values : value) :
  ~ In test_name known_kinds ->
  In (model_name, model_data) items ->
  constraints_of model_data = Some cs ->
  In (test_name, test_values) cs ->
  populate_test self test_name (VList vs)
    = Err (ValueError "cannot handle any other tests") /\
  is_schema_error (ValueError "cannot handle any other tests") = false /\
  raises (convert_schema (VDict items)).
Proof.
  intros Hn Hitem Hcs Hkind. split; [| split].
  - apply populate_test_unknown. exact Hn.
  - reflexivity.
  - destruct (constraints_of_Some _ Hcs) as [Hin Hget].
    eapply convert_schema_raises; [exact Hitem | exact Hin | exact Hget |].
    eapply populate_loop_raises; [exact Hkind |].
    intros b. apply populate_test_unknown_raises. exact Hn.
Qed.

Lemma unknown_kind_aborts_witness :
  populate_test (new_builder (SStr "foo")) (SStr "foo_bar_test")
    (VList [vstr "id"])
    = Err (ValueError "cannot handle any other tests") /\
  is_schema_error (ValueError "cannot handle any other tests") = false /\
  raises (convert_schema (VDict unknown_kind_doc)).
Proof.
  apply (@unknown_kind_aborts (new_builder (SStr "foo")) [vstr "id"]
           unknown_kind_doc (SStr "foo")
           (VDict [(SStr "constraints",
                    VDict [(SStr "foo_bar_test", VList [vstr "id"])])])
           [(SStr "foo_bar_test", VList [vstr "id"])]
           (SStr "foo_bar_test") (VList [vstr "id"])).
  - simpl. intros [H | [H | [H | [H | []]]]]; discriminate H.
  - simpl. left. reflexivity.
  - reflexivity.
  - simpl. left. reflexivity.
Defined.

(** C3 (the script departs from it).  With test values that are not a list
    the script means to raise [OperationalError] with the message
    'Expected type "list" ...' naming the test, the model and the type
    found; the message refers to [model_name], which is unbound, so
    [populate_test], and with it the conversion, ends in [NameError]. *)
Theorem non_list_test_values_raise_NameError :
  populate_test (new_builder (SStr "foo")) (SStr "not_null") (vstr "id")
    = Err (NameError "model_name") /\
  convert_schema
    (VDict [(SStr "foo",
             VDict [(SStr "constraints",
                     VDict [(SStr "not_null", vstr "id")])])])
    = Err (NameError "model_name").
Proof. split; reflexivity. Qed.

(** *** A complex element without its designator key *)

Lemma handle_complex_loop_app column_key test_name post pre :
  forall self self1,
  handle_complex_loop self column_key pre test_name = Ok self1 ->
  handle_complex_loop self column_key (pre ++ post) test_name
    = handle_complex_loop self1 column_key post test_name.
Proof.
  induction pre as [| dct pre IH]; simpl; intros self self1 H.
  - injection H as <-. reflexivity.
  - bind_inv H as present Hin. rewrite Hin. simpl.
    destruct present; simpl in *; [| discriminate H].
    bind_inv H as column_name Hget. rewrite Hget. simpl.
    bind_inv H as its Hits. rewrite Hits. simpl.
    bind_inv H as self2 Hadd. rewrite Hadd. simpl.
    apply IH. exact H.
Qed.

Lemma handle_complex_loop_name column_key test_name vs self self1 :
  handle_complex_loop self column_key vs test_name = Ok self1 ->
  model_name self1 = model_name self.
Proof.
  intros H. apply handle_complex_loop_spec in H. subst self1. reflexivity.
Qed.

Lemma handle_complex_loop_raises column_key test_name dct vs :
  In dct vs -> py_in column_key dct = Ok false ->
  forall self, raises (handle_complex_loop self column_key vs test_name).
Proof.
  intros Hin Hlack. induction vs as [| v vs IH]; simpl in *; [destruct Hin |].
  intros self. destruct Hin as [-> | Hin].
  - rewrite Hlack. exact I.
  - apply raises_bind. intros present _.
    destruct present; simpl; [| exact I].
    apply raises_bind. intros column_name _.
    apply raises_bind. intros its _.
    apply raises_bind. intros self1 _. apply IH. exact Hin.
Qed.

(** C4.  Let [test_name] be a complex test kind with designator key
    [column_key] ([from] for [relationships], [field] for
    [accepted_values]) and let [dct] be an element of its test values that
    lacks the key.  Once the elements before [dct] have been handled,
    [handle_complex_column] raises [OperationalError], whose message is
    formatted from the test kind, the model name, the key and the raw
    element [dct]; whatever precedes, [handle_complex_column] does not
    return, and the conversion of a document holding such a model produces
    no output. *)
Theorem missing_designator_aborts
  (items : dict) (mname : scalar) (mdata : value) (cs : dict)
  (test_name : scalar) (column_key : string)
  (pre : list value) (dct : value) (post : list value) :
  dict_get COMPLEX_COLUMN_TESTS test_name = Some column_key ->
  py_in column_key dct = Ok false ->
  In (mname, mdata) items ->
  constraints_of mdata = Some cs ->
  In (test_name, VList (pre ++ dct :: post)) cs ->
  (forall self self1,
     handle_complex_column self pre test_name = Ok self1 ->
     handle_complex_column self (pre ++ dct :: post) test_name
       = Err (OperationalError missing_key_template
                [VScalar test_name; VScalar (model_name self);
                 vstr column_key; dct])) /\
  (forall self,
     raises (handle_complex_column self (pre ++ dct :: post) test_name)) /\
  raises (convert_schema (VDict items)).
Proof.
  intros Hkey Hlack Hitem Hcs Hkind.
  assert (Hr : forall self,
             raises (handle_complex_column self (pre ++ dct :: post)
                       test_name)).
  { intros self. unfold handle_complex_column. rewrite Hkey.
    apply (handle_complex_loop_raises column_key test_name dct).
    - apply in_elt.
    - exact Hlack. }
  split; [| split].
  - intros self self1 Hpre. unfold handle_complex_column in *.
    rewrite Hkey in *.
    rewrite (handle_complex_loop_app _ _ (dct :: post) _ _ Hpre).
    simpl. rewrite Hlack. simpl.
    rewrite (handle_complex_loop_name _ _ _ _ Hpre). reflexivity.
  - exact Hr.
  - destruct (constraints_of_Some _ Hcs) as [Hin Hget].
    eapply convert_schema_raises; [exact Hitem | exact Hin | exact Hget |].
    eapply populate_loop_raises; [exact Hkind |].
    intros b. unfold populate_test.
    destruct (complex_kind _ Hkey) as [-> ->]. apply Hr.
Qed.

Lemma missing_designator_aborts_witness :
  handle_complex_column (new_builder (SStr "foo"))
    ([] ++ missing_field_element :: []) (SStr "accepted_values")
    = Err (OperationalError missing_key_template
             [vstr "accepted_values"; vstr "foo"; vstr "field";
              missing_field_element]) /\
  raises (convert_schema (VDict missing_field_doc)).
Proof.
  pose proof (@missing_designator_aborts missing_field_doc (SStr "foo")
                (VDict [(SStr "constraints",
                         VDict missing_field_constraints)])
                missing_field_constraints (SStr "accepted_values") "field"
                [] missing_field_element []
                eq_refl eq_refl (or_introl eq_refl) eq_refl
                (or_introl eq_refl)) as [H1 [_ H3]].
  split; [| exact H3].
  apply (H1 (new_builder (SStr "foo")) (new_builder (SStr "foo"))).
  reflexivity.
Defined.

(* ================================================================== *)
(** ** Models without constraints, models with empty constraints *)
(* ================================================================== *)

Lemma convert_loop_skip n d post :
  dict_mem d (SStr "constraints") = false ->
  forall pre acc,
  convert_loop (pre ++ (n, VDict d) :: post) acc
    = convert_loop (pre ++ post) acc.
Proof.
  intros Hno. induction pre as [| [n0 data0] pre IH]; intros acc.
  - simpl. rewrite Hno. reflexivity.
  - simpl. destruct (py_in "constraints" data0) as [[|] | e]; simpl;
      try reflexivity; [| apply IH].
    destruct (py_getitem data0 "constraints") as [c | e]; simpl;
      [| reflexivity].
    destruct (populate_from_constraints (new_builder n0) c) as [b | e];
      simpl; [| reflexivity].
    destruct (generate_model_dict b) as [m | e]; simpl; [| reflexivity].
    apply IH.
Qed.

Lemma converted_names fitems ms :
  Forall2 converted fitems ms -> map m_name ms = map fst fitems.
Proof.
  induction 1 as [| item m l l' [cs [_ Hb]] _ IH]; simpl; [reflexivity |].
  destruct (built_from_anatomy Hb) as [Hname _].
  rewrite Hname, IH. reflexivity.
Qed.

Lemma NoDup_fst_unique (V : Type) (l : list (scalar * V)) k v v' :
  NoDup (map fst l) -> In (k, v) l -> In (k, v') l -> v = v'.
Proof.
  induction l as [| [k0 v0] l IH]; simpl; [intros _ [] |].
  intros Hnd H1 H2. inversion Hnd as [| ? ? Hnot Hnd']; subst.
  destruct H1 as [H1 | H1], H2 as [H2 | H2].
  - congruence.
  - injection H1 as -> ->. exfalso. apply Hnot.
    apply (in_map fst) in H2. exact H2.
  - injection H2 as -> ->. exfalso. apply Hnot.
    apply (in_map fst) in H1. exact H1.
  - apply IH; assumption.
Qed.

(** C5.  A model whose definition mapping has no [constraints] key is
    skipped without error: the conversion of the document is that of the
    document without this model, and, model names being the keys of a
    mapping, no record of a converted document bears its name. *)
Theorem model_without_constraints_is_dropped
  (pre : dict) (n : scalar) (d : dict) (post : dict) :
  dict_mem d (SStr "constraints") = false ->
  convert_schema (VDict (pre ++ (n, VDict d) :: post))
    = convert_schema (VDict (pre ++ post)) /\
  (forall out,
     NoDup (map fst (pre ++ (n, VDict d) :: post)) ->
     convert_schema (VDict (pre ++ (n, VDict d) :: post)) = Ok out ->
     ~ In n (map m_name (models out))).
Proof.
  intros Hno. split.
  - unfold convert_schema. simpl.
    rewrite (convert_loop_skip n d post Hno). reflexivity.
  - intros out Hnd H Hin.
    destruct (convert_schema_spec _ H) as [items [Heq [_ HF]]].
    injection Heq as <-.
    rewrite (converted_names HF) in Hin.
    apply in_map_iff in Hin. destruct Hin as [[n' data] [Hn Hf]].
    simpl in Hn. subst n'.
    apply filter_In in Hf. destruct Hf as [Hitem Hhas].
    assert (Hmine : In (n, VDict d) (pre ++ (n, VDict d) :: post))
      by apply in_elt.
    rewrite (NoDup_fst_unique _ _ _ _ Hnd Hitem Hmine) in Hhas.
    unfold has_constraints in Hhas. simpl in Hhas.
    rewrite Hno in Hhas. discriminate Hhas.
Qed.

Lemma model_without_constraints_is_dropped_witness :
  convert_schema
    (VDict ([(SStr "bar", bar_definition)]
            ++ (SStr "baz", VDict [(SStr "description", vstr "no tests")])
            :: []))
  = convert_schema (VDict ([(SStr "bar", bar_definition)] ++ [])) /\
  ~ In (SStr "baz") (map m_name (models (mkDocument 2 [expected_bar]))).
Proof.
  pose proof (@model_without_constraints_is_dropped
                [(SStr "bar", bar_definition)] (SStr "baz")
                [(SStr "description", vstr "no tests")] [] eq_refl)
    as [H1 H2].
  split; [exact H1 | apply H2].
  - simpl. repeat constructor; simpl; intuition discriminate.
  - vm_compute. reflexivity.
Defined.

Lemma built_from_empty n m : built_from n [] m -> m = mkModel n None None.
Proof.
  intros [b [Hp Hg]]. simpl in Hp. injection Hp as <-.
  simpl in Hg. injection Hg as <-. reflexivity.
Qed.

(** C10.  A model whose [constraints] key holds an empty mapping is kept:
    its step of the conversion succeeds and appends the record that has
    the [name] key only, with neither [columns] nor [tests]; a document
    made of this model converts to that single record, and every converted
    document that holds the model holds the record. *)
Theorem empty_constraints_give_name_only
  (pre : dict) (n : scalar) (d : dict) (post : dict) :
  dict_get d (SStr "constraints") = Some (VDict []) ->
  (forall acc,
     convert_loop ((n, VDict d) :: post) acc
       = convert_loop post (acc ++ [mkModel n None None])) /\
  convert_schema (VDict [(n, VDict d)])
    = Ok (mkDocument 2 [mkModel n None None]) /\
  (forall out,
     convert_schema (VDict (pre ++ (n, VDict d) :: post)) = Ok out ->
     In (mkModel n None None) (models out)).
Proof.
  intros Hget.
  assert (Hstep : forall rest acc,
             convert_loop ((n, VDict d) :: rest) acc
               = convert_loop rest (acc ++ [mkModel n None None])).
  { intros rest acc. simpl. unfold dict_mem. rewrite Hget. reflexivity. }
  split; [| split].
  - apply Hstep.
  - unfold convert_schema. simpl py_items. cbn [bind].
    rewrite Hstep. reflexivity.
  - intros out H.
    destruct (convert_schema_spec _ H) as [items [Heq [_ HF]]].
    injection Heq as <-.
    assert (Hitem : In (n, VDict d)
                      (filter has_constraints
                         (pre ++ (n, VDict d) :: post))).
    { apply filter_In. split; [apply in_elt |].
      unfold has_constraints. simpl. unfold dict_mem. rewrite Hget.
      reflexivity. }
    destruct (Forall2_In_l _ HF Hitem) as [m [Hm [cs [Hcs Hb]]]].
    simpl in Hcs. rewrite Hget in Hcs. injection Hcs as <-.
    simpl in Hb. rewrite <- (built_from_empty Hb). exact Hm.
Qed.

Lemma empty_constraints_give_name_only_witness :
  convert_loop
    ((SStr "foo", VDict [(SStr "constraints", VDict [])])
     :: [(SStr "bar", bar_definition)]) []
  = convert_loop [(SStr "bar", bar_definition)]
      ([] ++ [mkModel (SStr "foo") None None]) /\
  convert_schema
    (VDict [(SStr "foo", VDict [(SStr "constraints", VDict [])])])
  = Ok (mkDocument 2 [mkModel (SStr "foo") None None]) /\
  In (mkModel (SStr "foo") None None)
     (models (mkDocument 2 [mkModel (SStr "foo") None None; expected_bar])).
Proof.
  pose proof (@empty_constraints_give_name_only [] (SStr "foo")
                [(SStr "constraints", VDict [])]
                [(SStr "bar", bar_definition)] eq_refl) as [H1 [H2 H3]].
  split; [exact (H1 []) |]. split; [exact H2 |].
  apply H3. vm_compute. reflexivity.
Defined.

(* ================================================================== *)
(** ** The entry of a complex test *)
(* ================================================================== *)

Lemma without_key_get_designator column_key (d : dict) :
  dict_get (without_key column_key d) (SStr column_key) = None.
Proof.
  unfold without_key. induction d as [| [k v] d IH]; simpl; [reflexivity |].
  destruct (scalar_eqb k (SStr column_key)) eqn:E; simpl; [exact IH |].
  rewrite E. exact IH.
Qed.

Lemma handle_complex_loop_elements test_name column_key elems :
  Forall (designates column_key) elems ->
  forall self,
  handle_complex_loop self column_key
    (map (fun kd => VDict (snd kd)) elems) test_name
  = Ok (set_columns self
          (record_all (columns self)
             (map (fun kd =>
                     (fst kd, complex_entry test_name column_key (snd kd)))
                  elems))).
Proof.
  induction 1 as [| [k d] elems Hkd _ IH]; intros self; simpl.
  - rewrite set_columns_same. reflexivity.
  - unfold designates in Hkd. simpl in Hkd.
    unfold dict_mem. rewrite Hkd. simpl.
    rewrite (add_test_Ok self (VScalar k) _ eq_refl). simpl.
    rewrite IH. reflexivity.
Qed.

Lemma entries_for_elements n test_name column_key elems :
  entries_for n
    (map (fun kd => (fst kd, complex_entry test_name column_key (snd kd)))
         elems)
  = map (fun kd => complex_entry test_name column_key (snd kd))
        (filter (fun kd => scalar_eqb (fst kd) n) elems).
Proof.
  unfold entries_for.
  induction elems as [| [k d] elems IH]; simpl; [reflexivity |].
  destruct (scalar_eqb k n); simpl; rewrite IH; reflexivity.
Qed.

Lemma existsb_elements n test_name column_key (elems : list (scalar * dict)) :
  existsb (fun p => scalar_eqb (fst p) n)
    (map (fun kd => (fst kd, complex_entry test_name column_key (snd kd)))
         elems)
  = existsb (fun kd => scalar_eqb (fst kd) n) elems.
Proof.
  induction elems as [| [k d] elems IH]; simpl; [reflexivity |].
  rewrite IH. reflexivity.
Qed.

(** C9.  Let the test values of a complex test be mappings that hold the
    designator key, each with a column name as its value.  Then
    [handle_complex_column] returns a builder in which every column has
    gained, in the order of the elements, one entry for each element whose
    designator value is its name: the one-key mapping from the test name to
    the element without its designator key, the other items in their
    order.  The columns named by the elements exist, no other column is
    created, and the name and model-level tests of the builder are kept.
    When the designator value of the next element is a list or a mapping,
    which no column can be named by, [handle_complex_column] raises
    [TypeError] instead. *)
Theorem complex_test_records_element_without_designator
  (self : ModelTestBuilder) (test_name : scalar) (column_key : string)
  (elems : list (scalar * dict)) :
  dict_get COMPLEX_COLUMN_TESTS test_name = Some column_key ->
  Forall (designates column_key) elems ->
  (exists self',
     handle_complex_column self (map (fun kd => VDict (snd kd)) elems)
       test_name = Ok self' /\
     model_name self' = model_name self /\
     model_tests self' = model_tests self /\
     (forall n,
        tests_at (columns self') n
        = tests_at (columns self) n
          ++ map (fun kd => Mapping test_name
                              (filter
                                 (fun kv =>
                                    negb (scalar_eqb (fst kv)
                                            (SStr column_key)))
                                 (snd kd)))
                 (filter (fun kd => scalar_eqb (fst kd) n) elems)) /\
     (forall n,
        dict_mem (columns self') n
        = dict_mem (columns self) n
          || existsb (fun kd => scalar_eqb (fst kd) n) elems)) /\
  (forall d v post,
     dict_get d (SStr column_key) = Some v ->
     (forall k, v <> VScalar k) ->
     handle_complex_column self
       (map (fun kd => VDict (snd kd)) elems ++ VDict d :: post) test_name
     = Err TypeError).
Proof.
  intros Hkey Helems.
  pose proof (handle_complex_loop_elements test_name Helems self) as Hrun.
  split.
  - eexists. split;
      [unfold handle_complex_column; rewrite Hkey; exact Hrun |].
    split; [reflexivity |]. split; [reflexivity |]. split.
    + intros n. simpl. rewrite tests_at_record_all, entries_for_elements.
      reflexivity.
    + intros n. simpl. rewrite dict_mem_record_all, existsb_elements.
      reflexivity.
  - intros d v post Hget Hv. unfold handle_complex_column. rewrite Hkey.
    rewrite (handle_complex_loop_app column_key test_name
               (VDict d :: post) _ _ Hrun).
    simpl. unfold dict_mem. rewrite Hget. simpl.
    assert (Hk : as_key v = Err TypeError).
    { destruct v as [k | l | d']; try reflexivity.
      exfalso. exact (Hv k eq_refl). }
    rewrite (add_test_Err _ _ _ Hk). reflexivity.
Qed.

Lemma complex_test_records_element_without_designator_witness :
  (exists self',
     handle_complex_column (new_builder (SStr "foo"))
       (map (fun kd => VDict (snd kd))
            [(SStr "favorite_color", favorite_color_element);
             (SStr "likes_puppies", likes_puppies_element)])
       (SStr "accepted_values") = Ok self' /\
     model_name self' = model_name (new_builder (SStr "foo")) /\
     model_tests self' = model_tests (new_builder (SStr "foo")) /\
     (forall n,
        tests_at (columns self') n
        = tests_at (columns (new_builder (SStr "foo"))) n
          ++ map (fun kd => Mapping (SStr "accepted_values")
                              (filter
                                 (fun kv =>
                                    negb (scalar_eqb (fst kv)
                                            (SStr "field")))
                                 (snd kd)))
                 (filter (fun kd => scalar_eqb (fst kd) n)
                    [(SStr "favorite_color", favorite_color_element);
                     (SStr "likes_puppies", likes_puppies_element)])) /\
     (forall n,
        dict_mem (columns self') n
        = dict_mem (columns (new_builder (SStr "foo"))) n
          || existsb (fun kd => scalar_eqb (fst kd) n)
               [(SStr "favorite_color", favorite_color_element);
                (SStr "likes_puppies", likes_puppies_element)])) /\
  (forall d v post,
     dict_get d (SStr "field") = Some v ->
     (forall k, v <> VScalar k) ->
     handle_complex_column (new_builder (SStr "foo"))
       (map (fun kd => VDict (snd kd))
            [(SStr "favorite_color", favorite_color_element);
             (SStr "likes_puppies", likes_puppies_element)]
        ++ VDict d :: post) (SStr "accepted_values")
     = Err TypeError).
Proof.
  apply (@complex_test_records_element_without_designator
           (new_builder (SStr "foo")) (SStr "accepted_values") "field"
           [(SStr "favorite_color", favorite_color_element);
            (SStr "likes_puppies", likes_puppies_element)]).
  - reflexivity.
  - repeat constructor.
Defined.

(* ================================================================== *)
(** ** Canonical order of columns and tests *)
(* ================================================================== *)

Lemma getitem_constraints_of model_data cs :
  py_getitem model_data "constraints" = Ok (VDict cs) ->
  constraints_of model_data = Some cs.
Proof.
  unfold py_getitem, constraints_of.
  destruct model_data as [x | l | d]; try discriminate.
  destruct (dict_get d (SStr "constraints")) as [v |]; [| discriminate].
  intros H. injection H as ->. reflexivity.
Qed.

Lemma sorted_strings (names : list string) :
  StronglySorted key_lt (map SStr names) ->
  StronglySorted (fun s t => String.ltb s t = true) names.
Proof.
  induction names as [| s names IH]; simpl; intros H; constructor;
    inversion H as [| ? ? Hs Hall]; subst.
  - apply IH. exact Hs.
  - rewrite Forall_map in Hall. eapply Forall_impl; [| exact Hall].
    intros t Ht. apply key_lt_str. exact Ht.
Qed.

(** C6.  In every model record of a converted document the columns are in
    strictly ascending order of their names for Python's [<]; when the
    names are strings, as the data model has them, this is the strict
    lexicographic order on strings. *)
Theorem columns_strictly_ascending
  (initial : value) (out : document) (m : model) :
  convert_schema initial = Ok out ->
  In m (models out) ->
  StronglySorted key_lt (map name (model_columns m)) /\
  (forall names,
     map name (model_columns m) = map SStr names ->
     StronglySorted (fun s t => String.ltb s t = true) names).
Proof.
  intros H Hin.
  destruct (@models_origin initial out m H Hin)
    as [items [data [cs [_ [_ [_ Hb]]]]]].
  pose proof (built_from_names_sorted Hb) as Hs.
  split; [exact Hs |].
  intros names Hnames. apply sorted_strings. rewrite <- Hnames. exact Hs.
Qed.

Lemma columns_strictly_ascending_witness :
  StronglySorted key_lt (map name (model_columns expected_foo)) /\
  (forall names,
     map name (model_columns expected_foo) = map SStr names ->
     StronglySorted (fun s t => String.ltb s t = true) names).
Proof.
  apply (@columns_strictly_ascending SAMPLE_SCHEMA expected_document
           expected_foo).
  - vm_compute. reflexivity.
  - simpl. left. reflexivity.
Defined.

(* ================================================================== *)
(** ** Accumulation on one column record *)
(* ================================================================== *)

Lemma handle_simple_column_complete vs test_name : forall self self',
  handle_simple_column self vs test_name = Ok self' ->
  List.length (flat_map (simple_declaration test_name) vs) = List.length vs.
Proof.
  induction vs as [| v vs IH]; simpl; intros self self' H; [reflexivity |].
  bind_inv H as self1 H1.
  destruct (as_key v) as [k | e] eqn:Hk.
  - apply as_key_Ok in Hk. subst v. simpl. f_equal. exact (IH _ _ H).
  - rewrite (add_test_Err _ _ _ Hk) in H1. discriminate H1.
Qed.

Lemma handle_complex_loop_complete column_key vs test_name :
  forall self self',
  handle_complex_loop self column_key vs test_name = Ok self' ->
  List.length (flat_map (complex_declaration column_key test_name) vs)
  = List.length vs.
Proof.
  induction vs as [| dct vs IH]; simpl; intros self self' H; [reflexivity |].
  bind_inv H as present Hin.
  destruct present; simpl in H; [| discriminate H].
  bind_inv H as column_name Hget.
  bind_inv H as its Hits.
  bind_inv H as self1 H1.
  destruct dct as [x | l | d]; simpl in Hget; try discriminate Hget.
  destruct (dict_get d (SStr column_key)) as [v |] eqn:G;
    [| discriminate Hget].
  injection Hget as <-.
  destruct (as_key v) as [k | e] eqn:Hk.
  - apply as_key_Ok in Hk. subst v.
    unfold complex_declaration at 1. rewrite G.
    simpl. f_equal. exact (IH _ _ H).
  - rewrite (add_test_Err _ _ _ Hk) in H1. discriminate H1.
Qed.

Lemma populate_test_complete self test_name test_values self' :
  populate_test self test_name test_values = Ok self' ->
  List.length (declarations_of test_name test_values)
  = List.length (test_elements (test_name, test_values)).
Proof.
  unfold populate_test, declarations_of, test_elements. cbn [snd].
  destruct test_values as [x | vs | d]; try discriminate.
  destruct (in_SIMPLE test_name).
  - apply handle_simple_column_complete.
  - destruct (in_COMPLEX test_name); [| discriminate].
    unfold handle_complex_column.
    destruct (dict_get COMPLEX_COLUMN_TESTS test_name) as [ck |];
      [| discriminate].
    apply handle_complex_loop_complete.
Qed.

(** When the constraints are populated without error, every element of
    every list of test values is one declaration. *)
Lemma populate_loop_complete items : forall self self',
  populate_loop self items = Ok self' ->
  List.length (declared_tests items)
  = List.length (flat_map test_elements items).
Proof.
  induction items as [| [tn tv] items IH]; simpl; intros self self' H;
    [reflexivity |].
  bind_inv H as self1 H1.
  rewrite !length_app. rewrite (IH _ _ H).
  rewrite (populate_test_complete _ _ _ H1). reflexivity.
Qed.

Lemma existsb_filter_min (A : Type) (f : A -> bool) (l : list A) :
  (if existsb f l then 1 else 0) = Nat.min 1 (List.length (filter f l)).
Proof.
  induction l as [| x l IH]; simpl; [reflexivity |].
  destruct (f x); simpl; [reflexivity | exact IH].
Qed.

Lemma add_test_extends self k t :
  exists self2,
    add_test self (VScalar k) t = Ok self2 /\
    get_column self2 (VScalar k)
    = Ok (mkColumn (name_at (columns self) k)
            (tests_at (columns self) k ++ [t]), self2) /\
    (forall k', scalar_eqb k k' = false ->
       dict_get (columns self2) k' = dict_get (columns self) k').
Proof.
  eexists. split; [exact (add_test_Ok self (VScalar k) t eq_refl) |].
  split.
  - unfold get_column, record. simpl.
    rewrite dict_get_set, scalar_eqb_refl. reflexivity.
  - intros k' Hk'. unfold record. simpl.
    rewrite dict_get_set, Hk'. reflexivity.
Qed.

Lemma get_column_get_or_create self k :
  exists column self1,
    get_column self (VScalar k) = Ok (column, self1) /\
    dict_get (columns self1) k = Some column /\
    model_name self1 = model_name self /\
    model_tests self1 = model_tests self /\
    (forall c0, dict_get (columns self) k = Some c0 ->
       column = c0 /\ self1 = self) /\
    (dict_get (columns self) k = None ->
       column = mkColumn k [] /\
       columns self1 = columns self ++ [(k, column)]) /\
    (forall k', scalar_eqb k k' = false ->
       dict_get (columns self1) k' = dict_get (columns self) k') /\
    get_column self1 (VScalar k) = Ok (column, self1) /\
    name column = name_at (columns self) k /\
    tests column = tests_at (columns self) k.
Proof.
  unfold get_column, name_at, tests_at. simpl.
  destruct (dict_get (columns self) k) as [c0 |] eqn:G.
  - exists c0, self. rewrite G.
    repeat split; try reflexivity; try congruence; discriminate.
  - exists (mkColumn k []),
      (set_columns self (dict_set (columns self) k (mkColumn k []))).
    simpl. rewrite dict_get_set, scalar_eqb_refl.
    repeat split; try reflexivity; try discriminate.
    + apply dict_set_absent. exact G.
    + intros k' Hk'. rewrite dict_get_set, Hk'. reflexivity.
Qed.

(** C8.  In a converted document the record of a model has, for every
    column name, one column record when the constraints refer to the name
    and none otherwise, however many kinds refer to it; the test list of a
    column record is a rearrangement of the entries declared for its name,
    one per appearance, every element of every list of test values being
    one appearance.  [get_column] returns the same column, and leaves
    the builder as it is, when called again with the same name.  It gets
    or creates: the column it returns is the one the builder holds under
    the name afterwards; a name the builder holds already is answered with
    the column held, the builder unchanged; a name it does not hold gets a
    new column of that name with no tests, stored after the columns
    present; no other column changes.  A test added by [add_test] is
    appended to that column, which the next [get_column] returns, and to
    no other. *)
Theorem column_accumulates_per_appearance
  (items : dict) (out : document) (mname : scalar) (mdata : value)
  (cs : dict) :
  convert_schema (VDict items) = Ok out ->
  In (mname, mdata) items ->
  constraints_of mdata = Some cs ->
  (exists m,
     In m (models out) /\ m_name m = mname /\
     (forall n,
        List.length (filter (same_key n) (map name (model_columns m)))
        = Nat.min 1 (appearances n cs)) /\
     (forall c, In c (model_columns m) ->
        Permutation (entries_for (name c) (declared_tests cs)) (tests c) /\
        List.length (tests c) = appearances (name c) cs) /\
     List.length (declared_tests cs)
     = List.length (flat_map test_elements cs)) /\
  (forall self column_name column self1,
     get_column self column_name = Ok (column, self1) ->
     get_column self1 column_name = Ok (column, self1)) /\
  (forall self k,
     exists column self1,
       get_column self (VScalar k) = Ok (column, self1) /\
       dict_get (columns self1) k = Some column /\
       model_name self1 = model_name self /\
       model_tests self1 = model_tests self /\
       (forall c0, dict_get (columns self) k = Some c0 ->
          column = c0 /\ self1 = self) /\
       (dict_get (columns self) k = None ->
          column = mkColumn k [] /\
          columns self1 = columns self ++ [(k, column)]) /\
       (forall k', scalar_eqb k k' = false ->
          dict_get (columns self1) k' = dict_get (columns self) k') /\
       get_column self1 (VScalar k) = Ok (column, self1) /\
       (forall t, exists self2,
          add_test self (VScalar k) t = Ok self2 /\
          get_column self2 (VScalar k)
          = Ok (mkColumn (name column) (tests column ++ [t]), self2) /\
          (forall k', scalar_eqb k k' = false ->
             dict_get (columns self2) k' = dict_get (columns self) k'))).
Proof.
  intros H Hitem Hcs. split; [| split; [apply get_column_idempotent |]].
  2: { intros self k.
       destruct (get_column_get_or_create self k)
         as [column [self1 [H1 [H2 [H3 [H4 [H5 [H6 [H7 [H8 [Hn Ht]]]]]]]]]]].
       exists column, self1. repeat (split; [assumption |]).
       intros t. rewrite Hn, Ht. apply add_test_extends. }
  destruct (convert_schema_spec _ H) as [items' [Heq [_ HF]]].
  injection Heq as <-.
  destruct (constraints_of_Some _ Hcs) as [Hin Hget].
  assert (Hf : In (mname, mdata) (filter has_constraints items)).
  { apply filter_In. split; [exact Hitem |].
    unfold has_constraints. simpl. rewrite Hin. reflexivity. }
  destruct (Forall2_In_l _ HF Hf) as [m [Hm [cs' [Hget' Hb]]]].
  simpl in Hget', Hb. rewrite Hget in Hget'. injection Hget' as <-.
  exists m. split; [exact Hm |].
  split; [exact (proj1 (built_from_anatomy Hb)) |]. split; [| split].
  - intros n. rewrite (built_from_name_count n Hb).
    unfold appearances, entries_for. rewrite length_map.
    apply existsb_filter_min.
  - intros c Hc. pose proof (built_from_column c Hb Hc) as Hsort.
    pose proof (py_sorted_perm _ _ Hsort) as Hperm.
    split; [exact Hperm |].
    unfold appearances. symmetry. apply Permutation_length. exact Hperm.
  - destruct Hb as [b [Hp _]]. exact (populate_loop_complete _ _ Hp).
Qed.

Lemma column_accumulates_per_appearance_witness :
  (exists m,
     In m (models expected_document) /\ m_name m = SStr "foo" /\
     (forall n,
        List.length (filter (same_key n) (map name (model_columns m)))
        = Nat.min 1 (appearances n foo_constraints)) /\
     (forall c, In c (model_columns m) ->
        Permutation (entries_for (name c) (declared_tests foo_constraints)) (tests c) /\
        List.length (tests c) = appearances (name c) foo_constraints) /\
     List.length (declared_tests foo_constraints)
     = List.length (flat_map test_elements foo_constraints)) /\
  (forall self column_name column self1,
     get_column self column_name = Ok (column, self1) ->
     get_column self1 column_name = Ok (column, self1)) /\
  (forall self k,
     exists column self1,
       get_column self (VScalar k) = Ok (column, self1) /\
       dict_get (columns self1) k = Some column /\
       model_name self1 = model_name self /\
       model_tests self1 = model_tests self /\
       (forall c0, dict_get (columns self) k = Some c0 ->
          column = c0 /\ self1 = self) /\
       (dict_get (columns self) k = None ->
          column = mkColumn k [] /\
          columns self1 = columns self ++ [(k, column)]) /\
       (forall k', scalar_eqb k k' = false ->
          dict_get (columns self1) k' = dict_get (columns self) k') /\
       get_column self1 (VScalar k) = Ok (column, self1) /\
       (forall t, exists self2,
          add_test self (VScalar k) t = Ok self2 /\
          get_column self2 (VScalar k)
          = Ok (mkColumn (name column) (tests column ++ [t]), self2) /\
          (forall k', scalar_eqb k k' = false ->
             dict_get (columns self2) k' = dict_get (columns self) k'))).
Proof.
  apply (@column_accumulates_per_appearance sample_items expected_document
           (SStr "foo") foo_definition foo_constraints).
  - vm_compute. reflexivity.
  - simpl. left. reflexivity.
  - reflexivity.
Defined.

(* ================================================================== *)
(** ** Further properties of the converter *)
(* ================================================================== *)

(** *** The loop of [convert_schema], model by model *)

Lemma convert_loop_acc items : forall acc,
  convert_loop items acc
  = (ms <- convert_loop items [] ;; Ok (acc ++ ms)).
Proof.
  induction items as [| [n data] items IH]; intros acc; simpl.
  - rewrite app_nil_r. reflexivity.
  - destruct (py_in "constraints" data) as [[|] | e]; simpl;
      try reflexivity; [| apply IH].
    destruct (py_getitem data "constraints") as [c | e]; simpl;
      [| reflexivity].
    destruct (populate_from_constraints (new_builder n) c) as [b | e];
      simpl; [| reflexivity].
    destruct (generate_model_dict b) as [m | e]; simpl; [| reflexivity].
    rewrite (IH (acc ++ [m])), (IH [m]).
    destruct (convert_loop items []) as [ms | e]; simpl; [| reflexivity].
    rewrite <- app_assoc. reflexivity.
Qed.

Lemma convert_loop_app b : forall a acc,
  convert_loop (a ++ b) acc
  = (ma <- convert_loop a acc ;; convert_loop b ma).
Proof.
  induction a as [| [n data] a IH]; intros acc; simpl; [reflexivity |].
  destruct (py_in "constraints" data) as [[|] | e]; simpl;
    try reflexivity; [| apply IH].
  destruct (py_getitem data "constraints") as [c | e]; simpl;
    [| reflexivity].
  destruct (populate_from_constraints (new_builder n) c) as [bd | e];
    simpl; [| reflexivity].
  destruct (generate_model_dict bd) as [m | e]; simpl; [| reflexivity].
  apply IH.
Qed.

(** The loop runs [build_model] on every model that has constraints. *)
Lemma convert_loop_cons n data rest acc :
  py_in "constraints" data = Ok true ->
  convert_loop ((n, data) :: rest) acc
  = (c <- py_getitem data "constraints" ;;
     m <- build_model n c ;;
     convert_loop rest (acc ++ [m])).
Proof.
  intros Hin. simpl. rewrite Hin. simpl. unfold build_model.
  destruct (py_getitem data "constraints") as [c | e]; simpl;
    [| reflexivity].
  destruct (populate_from_constraints (new_builder n) c) as [b | e];
    simpl; reflexivity.
Qed.

Lemma convert_loop_item_raises n data items :
  In (n, data) items ->
  raises (py_in "constraints" data) \/
  (py_in "constraints" data = Ok true /\
   raises (c <- py_getitem data "constraints" ;; build_model n c)) ->
  forall acc, raises (convert_loop items acc).
Proof.
  intros Hin Hr. induction items as [| [n0 data0] items IH];
    [destruct Hin |].
  intros acc. destruct Hin as [Heq | Hin].
  - injection Heq as -> ->. destruct Hr as [Hr | [Hpresent Hr]].
    + simpl. apply bind_raises_l. exact Hr.
    + rewrite (convert_loop_cons _ _ _ _ Hpresent).
      destruct (py_getitem data "constraints") as [c | e]; simpl in *;
        [| exact I].
      apply bind_raises_l. exact Hr.
  - simpl. apply raises_bind. intros present _.
    destruct present; simpl; [| apply IH; exact Hin].
    apply raises_bind. intros constraints _.
    apply raises_bind. intros builder1 _.
    apply raises_bind. intros m _. apply IH. exact Hin.
Qed.

(** X2.  The records of a converted document are those of the models that
    have constraints, in the order of the input; the version is 2. *)
Theorem models_follow_input_order (items : dict) (out : document) :
  convert_schema (VDict items) = Ok out ->
  version out = 2%Z /\
  map m_name (models out) = map fst (filter has_constraints items).
Proof.
  intros H. destruct (convert_schema_spec _ H) as [items' [Heq [Hv HF]]].
  injection Heq as <-. split; [exact Hv |]. exact (converted_names HF).
Qed.

Lemma models_follow_input_order_witness :
  version expected_document = 2%Z /\
  map m_name (models expected_document)
  = map fst (filter has_constraints sample_items).
Proof.
  apply (@models_follow_input_order sample_items expected_document).
  vm_compute. reflexivity.
Defined.

(** X4.  Models are converted independently of one another: converting two
    documents put end to end gives the records of the first followed by
    those of the second, and fails as soon as one of the two fails. *)
Theorem conversion_composes (a b : dict) :
  convert_schema (VDict (a ++ b))
  = (oa <- convert_schema (VDict a) ;;
     ob <- convert_schema (VDict b) ;;
     Ok (mkDocument 2 (models oa ++ models ob))).
Proof.
  unfold convert_schema. simpl. rewrite convert_loop_app.
  destruct (convert_loop a []) as [ma | e]; simpl; [| reflexivity].
  rewrite convert_loop_acc.
  destruct (convert_loop b []) as [mb | e]; simpl; reflexivity.
Qed.

(** *** Definitions that are not mappings *)

(** X9.  When the [constraints] of a model are not a mapping (a list, a
    string, nothing), [populate_from_constraints] raises [AttributeError]
    and the document is not converted. *)
Theorem constraints_must_be_a_mapping
  (items : dict) (n : scalar) (d : dict) (c : value)
  (self : ModelTestBuilder) :
  In (n, VDict d) items ->
  dict_get d (SStr "constraints") = Some c ->
  (forall cs, c <> VDict cs) ->
  populate_from_constraints self c = Err AttributeError /\
  raises (convert_schema (VDict items)).
Proof.
  intros Hin Hget Hc.
  assert (Hp : forall b, populate_from_constraints b c = Err AttributeError).
  { intros b. destruct c as [x | l | cs]; try reflexivity.
    exfalso. exact (Hc cs eq_refl). }
  split; [apply Hp |].
  unfold convert_schema. simpl. apply bind_raises_l.
  apply (convert_loop_item_raises n (VDict d) items Hin). right. split.
  - simpl. unfold dict_mem. rewrite Hget. reflexivity.
  - simpl. rewrite Hget. simpl. unfold build_model. rewrite Hp. exact I.
Qed.

Lemma constraints_must_be_a_mapping_witness :
  populate_from_constraints (new_builder (SStr "foo"))
    (VList [vstr "not_null"; vstr "unique"]) = Err AttributeError /\
  raises (convert_schema (VDict list_constraints_doc)).
Proof.
  apply (@constraints_must_be_a_mapping list_constraints_doc (SStr "foo")
           [(SStr "constraints", VList [vstr "not_null"; vstr "unique"])]
           (VList [vstr "not_null"; vstr "unique"])
           (new_builder (SStr "foo"))).
  - simpl. left. reflexivity.
  - reflexivity.
  - intros cs H. discriminate H.
Defined.

(** X10.  A top-level entry whose value is a scalar other than a string (a
    number, a boolean, nothing: [version: 1], an empty [foo:]) stops the
    conversion: the test ['constraints' not in model_data] raises
    [TypeError], which is the result when the entry comes first. *)
Theorem scalar_definition_aborts
  (items rest : dict) (k : scalar) (x : scalar) :
  In (k, VScalar x) items ->
  (forall s, x <> SStr s) ->
  raises (convert_schema (VDict items)) /\
  convert_schema (VDict ((k, VScalar x) :: rest)) = Err TypeError.
Proof.
  intros Hin Hx.
  assert (Hp : py_in "constraints" (VScalar x) = Err TypeError).
  { destruct x as [| b | z | s]; try reflexivity.
    exfalso. exact (Hx s eq_refl). }
  split.
  - unfold convert_schema. simpl. apply bind_raises_l.
    apply (convert_loop_item_raises k (VScalar x) items Hin).
    left. rewrite Hp. exact I.
  - unfold convert_schema. simpl py_items. cbn [bind convert_loop].
    rewrite Hp. reflexivity.
Qed.

Lemma scalar_definition_aborts_witness :
  raises (convert_schema (VDict versioned_doc)) /\
  convert_schema
    (VDict ((SStr "version", VScalar (SInt 1))
            :: [(SStr "foo", foo_definition)])) = Err TypeError.
Proof.
  apply (@scalar_definition_aborts versioned_doc
           [(SStr "foo", foo_definition)] (SStr "version") (SInt 1)).
  - simpl. left. reflexivity.
  - intros s H. discriminate H.
Defined.

(** *** The builder after the constraints *)

Lemma tests_nonempty_record cols p :
  Forall (fun q => tests (snd q) <> []) cols ->
  Forall (fun q => tests (snd q) <> []) (record cols p).
Proof.
  intros Hcols. rewrite Forall_forall in *. intros q Hq.
  unfold record in Hq. apply In_dict_set in Hq.
  destruct Hq as [[Hv _] | Hold]; [| apply Hcols; exact Hold].
  rewrite Hv. simpl. intros Hnil. apply app_eq_nil in Hnil.
  destruct Hnil as [_ Hnil]. discriminate Hnil.
Qed.

Lemma tests_nonempty_record_all log : forall cols,
  Forall (fun q => tests (snd q) <> []) cols ->
  Forall (fun q => tests (snd q) <> []) (record_all cols log).
Proof.
  unfold record_all. induction log as [| p log IH]; simpl; intros cols Hc.
  - exact Hc.
  - apply IH. apply tests_nonempty_record. exact Hc.
Qed.

(** X12.  When the constraints of a model are populated without error, the
    builder still bears the name of the model and no model-level test, no
    two of its columns are stored under equal names, every column is
    stored under its own name and every column has at least one test. *)
Theorem builder_invariant
  (n : scalar) (constraints : value) (b : ModelTestBuilder) :
  populate_from_constraints (new_builder n) constraints = Ok b ->
  model_name b = n /\ model_tests b = [] /\
  distinct_keys (columns b) /\
  Forall (fun q => name (snd q) = fst q /\ tests (snd q) <> []) (columns b).
Proof.
  unfold populate_from_constraints. intros H. bind_inv H as cs Hcs.
  apply populate_loop_spec in H. subst b. simpl.
  destruct (columns_ok_record_all (declared_tests cs) columns_ok_nil)
    as [Hw Hd].
  repeat split; try exact Hd.
  pose proof (tests_nonempty_record_all (declared_tests cs)
                (Forall_nil _)) as Hne.
  unfold well_named in Hw. rewrite Forall_forall in *.
  intros q Hq. split; [exact (Hw q Hq) | exact (Hne q Hq)].
Qed.

Lemma builder_invariant_witness :
  exists b,
    populate_from_constraints (new_builder (SStr "foo"))
      (VDict foo_constraints) = Ok b /\
    model_name b = SStr "foo" /\ model_tests b = [] /\
    distinct_keys (columns b) /\
    Forall (fun q => name (snd q) = fst q /\ tests (snd q) <> [])
           (columns b).
Proof.
  eexists. split; [vm_compute; reflexivity |].
  apply (@builder_invariant (SStr "foo") (VDict foo_constraints)).
  vm_compute. reflexivity.
Defined.

(** *** The shape of a model record *)

Lemma record_all_nil_iff log : record_all [] log = [] <-> log = [].
Proof.
  split; [| intros ->; reflexivity].
  destruct log as [| p log]; [reflexivity |]. intros H.
  pose proof (dict_mem_record_all (p :: log) [] (fst p)) as Hm.
  rewrite H in Hm. simpl in Hm. rewrite scalar_eqb_refl in Hm.
  discriminate Hm.
Qed.

Lemma built_from_columns_nonempty model_name cs m :
  built_from model_name cs m -> m_columns m <> Some [].
Proof.
  intros Hb Hsome.
  destruct (built_from_anatomy Hb) as [_ [_ [Hnone [sorted [Hs HF]]]]].
  unfold model_columns in HF. rewrite Hsome in HF. inversion HF; subst.
  apply py_sorted_perm in Hs. apply Permutation_sym in Hs.
  apply Permutation_nil in Hs. apply map_eq_nil in Hs.
  apply Hnone in Hs. rewrite Hs in Hsome. discriminate Hsome.
Qed.

Lemma built_from_tests_nonempty model_name cs m c :
  built_from model_name cs m -> In c (model_columns m) -> tests c <> [].
Proof.
  intros Hb Hc Hnil.
  pose proof (built_from_column c Hb Hc) as Hsort.
  apply py_sorted_perm in Hsort. rewrite Hnil in Hsort.
  apply Permutation_sym, Permutation_nil in Hsort.
  pose proof (built_from_name_count (name c) Hb) as Hcount.
  assert (Hge : 1 <= List.length
                       (filter (same_key (name c))
                          (map name (model_columns m)))).
  { apply (count_ge_1 (name c) _ (name c)).
    - apply in_map. exact Hc.
    - apply scalar_eqb_refl. }
  rewrite Hcount, existsb_filter_min in Hge.
  unfold entries_for in Hsort. apply map_eq_nil in Hsort.
  rewrite Hsort in Hge. simpl in Hge. lia.
Qed.

(** X5.  A record of a converted document never has the [tests] key; it
    has the [columns] key exactly when the constraints of its model refer
    to at least one column, the list under that key is never empty, and no
    column record has an empty list of tests. *)
Theorem record_shape (initial : value) (out : document) (m : model) :
  convert_schema initial = Ok out ->
  In m (models out) ->
  m_tests m = None /\
  m_columns m <> Some [] /\
  Forall (fun c => tests c <> []) (model_columns m) /\
  exists items model_data cs,
    initial = VDict items /\
    In (m_name m, model_data) items /\
    constraints_of model_data = Some cs /\
    (m_columns m = None <-> declared_tests cs = []).
Proof.
  intros H Hm.
  destruct (@models_origin initial out m H Hm)
    as [items [data [cs [Hinit [Hitem [Hget Hb]]]]]].
  destruct (built_from_anatomy Hb) as [_ [Ht [Hnone _]]].
  split; [exact Ht |]. split; [exact (built_from_columns_nonempty Hb) |].
  split.
  - rewrite Forall_forall. intros c Hc.
    exact (built_from_tests_nonempty c Hb Hc).
  - exists items, data, cs. repeat split; try assumption.
    + apply getitem_constraints_of. exact Hget.
    + intros Hn. apply record_all_nil_iff. apply Hnone. exact Hn.
    + intros Hn. apply Hnone. apply record_all_nil_iff. exact Hn.
Qed.

Lemma record_shape_witness :
  m_tests expected_foo = None /\
  m_columns expected_foo <> Some [] /\
  Forall (fun c => tests c <> []) (model_columns expected_foo) /\
  exists items model_data cs,
    SAMPLE_SCHEMA = VDict items /\
    In (m_name expected_foo, model_data) items /\
    constraints_of model_data = Some cs /\
    (m_columns expected_foo = None <-> declared_tests cs = []).
Proof.
  apply (@record_shape SAMPLE_SCHEMA expected_document expected_foo).
  - vm_compute. reflexivity.
  - simpl. left. reflexivity.
Defined.

(** *** No test is lost, none is invented *)

Lemma Permutation_flat_map (A B : Type) (f : A -> list B) (l l' : list A) :
  Permutation l l' -> Permutation (flat_map f l) (flat_map f l').
Proof.
  induction 1 as [| x l l' _ IH | x y l | l l' l'' _ IH1 _ IH2]; simpl.
  - apply perm_nil.
  - apply Permutation_app_head. exact IH.
  - rewrite !app_assoc. apply Permutation_app_tail.
    apply Permutation_app_comm.
  - eapply perm_trans; eassumption.
Qed.

Lemma stored_tests_set cols k nm t :
  Permutation
    (flat_map stored_tests
       (dict_set cols k (mkColumn nm (tests_at cols k ++ [t]))))
    (flat_map stored_tests cols ++ [t]).
Proof.
  revert nm. induction cols as [| [k0 c0] cols IH]; intros nm; simpl.
  - apply Permutation_refl.
  - unfold tests_at. simpl. destruct (scalar_eqb k0 k) eqn:E; simpl.
    + unfold stored_tests at 1 3. simpl. rewrite <- !app_assoc.
      apply Permutation_app_head. apply Permutation_app_comm.
    + rewrite <- app_assoc. apply Permutation_app_head. apply IH.
Qed.

Lemma stored_tests_record_all log : forall cols,
  Permutation (flat_map stored_tests (record_all cols log))
              (flat_map stored_tests cols ++ map snd log).
Proof.
  unfold record_all. induction log as [| p log IH]; simpl; intros cols.
  - rewrite app_nil_r. apply Permutation_refl.
  - eapply perm_trans; [apply IH |].
    change (snd p :: map snd log) with ([snd p] ++ map snd log).
    rewrite app_assoc. apply Permutation_app_tail.
    apply stored_tests_set.
Qed.

Lemma sorted_tests_perm sorted out :
  Forall2 tests_sorted_of sorted out ->
  Permutation (flat_map tests sorted) (flat_map tests out).
Proof.
  induction 1 as [| c c' l l' [_ Hs] _ IH]; simpl; [apply perm_nil |].
  apply Permutation_app; [exact (py_sorted_perm _ _ Hs) | exact IH].
Qed.

Lemma built_from_all_tests model_name cs m :
  built_from model_name cs m ->
  Permutation (all_tests m) (map snd (declared_tests cs)).
Proof.
  intros Hb.
  destruct (built_from_anatomy Hb) as [_ [_ [_ [sorted [Hs HF]]]]].
  unfold all_tests. apply Permutation_sym.
  eapply perm_trans; [| apply (sorted_tests_perm HF)].
  eapply perm_trans;
    [| apply (Permutation_flat_map tests (py_sorted_perm _ _ Hs))].
  rewrite flat_map_concat_map, map_map, <- flat_map_concat_map.
  apply Permutation_sym.
  exact (stored_tests_record_all (declared_tests cs) []).
Qed.

(** X6.  The tests of a record of a converted document, taken over all its
    columns, are a rearrangement of the entries that the constraints of the
    model declare: there are as many as elements in the lists of test
    values, none is lost and none is added. *)
Theorem tests_are_conserved (initial : value) (out : document) (m : model) :
  convert_schema initial = Ok out ->
  In m (models out) ->
  exists items model_data cs,
    initial = VDict items /\
    In (m_name m, model_data) items /\
    constraints_of model_data = Some cs /\
    Permutation (all_tests m) (map snd (declared_tests cs)) /\
    List.length (all_tests m) = List.length (flat_map test_elements cs).
Proof.
  intros H Hm.
  destruct (@models_origin initial out m H Hm)
    as [items [data [cs [Hinit [Hitem [Hget Hb]]]]]].
  exists items, data, cs.
  pose proof (built_from_all_tests Hb) as Hperm.
  repeat split; try assumption.
  - apply getitem_constraints_of. exact Hget.
  - rewrite (Permutation_length Hperm), length_map.
    destruct Hb as [b [Hp _]]. exact (populate_loop_complete _ _ Hp).
Qed.

Lemma tests_are_conserved_witness :
  exists items model_data cs,
    SAMPLE_SCHEMA = VDict items /\
    In (m_name expected_foo, model_data) items /\
    constraints_of model_data = Some cs /\
    Permutation (all_tests expected_foo) (map snd (declared_tests cs)) /\
    List.length (all_tests expected_foo)
    = List.length (flat_map test_elements cs).
Proof.
  apply (@tests_are_conserved SAMPLE_SCHEMA expected_document expected_foo).
  - vm_compute. reflexivity.
  - simpl. left. reflexivity.
Defined.

(** *** The entries that the script writes *)

Lemma declarations_entry_ok test_name test_values :
  Forall (fun p => entry_ok (snd p)) (declarations_of test_name test_values).
Proof.
  unfold declarations_of. destruct test_values as [x | vs | d];
    try constructor.
  destruct (in_SIMPLE test_name) eqn:Hs.
  - induction vs as [| v vs IH]; simpl; [constructor |].
    apply Forall_app. split; [| exact IH].
    destruct v; simpl; repeat constructor. exact Hs.
  - destruct (dict_get COMPLEX_COLUMN_TESTS test_name) as [ck |] eqn:Hc;
      [| constructor].
    induction vs as [| v vs IH]; simpl; [constructor |].
    apply Forall_app. split; [| exact IH].
    destruct v as [x | l | d]; simpl; try constructor.
    destruct (dict_get d (SStr ck)) as [[k | l | d'] |]; try constructor;
      [| constructor].
    simpl. exists ck. split; [exact Hc |].
    apply without_key_get_designator.
Qed.

Lemma declared_entry_ok cs :
  Forall (fun p => entry_ok (snd p)) (declared_tests cs).
Proof.
  unfold declared_tests. induction cs as [| [tn tv] cs IH]; simpl;
    [constructor |].
  apply Forall_app. split; [apply declarations_entry_ok | exact IH].
Qed.

(** X7.  Every test entry of a converted document is of one of two kinds:
    the bare name of a simple test ([unique], [not_null]), or a mapping
    under the name of a complex test ([relationships], [accepted_values])
    whose parameters do not hold the designator key of that test. *)
Theorem entries_are_well_formed
  (initial : value) (out : document) (m : model) (c : column)
  (e : test_entry) :
  convert_schema initial = Ok out ->
  In m (models out) -> In c (model_columns m) -> In e (tests c) ->
  entry_ok e.
Proof.
  intros H Hm Hc He.
  destruct (@models_origin initial out m H Hm)
    as [items [data [cs [_ [_ [_ Hb]]]]]].
  pose proof (built_from_column c Hb Hc) as Hsort.
  apply py_sorted_perm in Hsort.
  apply (Permutation_in _ (Permutation_sym Hsort)) in He.
  unfold entries_for in He. apply in_map_iff in He.
  destruct He as [p [<- Hp]]. apply filter_In in Hp. destruct Hp as [Hp _].
  pose proof (declared_entry_ok cs) as Hall.
  rewrite Forall_forall in Hall. exact (Hall p Hp).
Qed.

Lemma entries_are_well_formed_witness :
  entry_ok (Mapping (SStr "accepted_values")
              [(SStr "values", VList [vstr "blue"; vstr "green"])]).
Proof.
  apply (@entries_are_well_formed SAMPLE_SCHEMA expected_document
           expected_foo favorite_color_column).
  - vm_compute. reflexivity.
  - simpl. left. reflexivity.
  - simpl. right. left. reflexivity.
  - simpl. left. reflexivity.
Defined.

(** *** Simple tests *)

Lemma handle_simple_column_names test_name names : forall self,
  handle_simple_column self (map VScalar names) test_name
  = Ok (set_columns self
          (record_all (columns self)
             (map (fun k => (k, Bare test_name)) names))).
Proof.
  induction names as [| k names IH]; intros self; simpl.
  - rewrite set_columns_same. reflexivity.
  - rewrite (add_test_Ok self (VScalar k) (Bare test_name) eq_refl).
    simpl. rewrite IH. reflexivity.
Qed.

Lemma entries_for_bare n test_name names :
  entries_for n (map (fun k => (k, Bare test_name)) names)
  = repeat (Bare test_name) (List.length (filter (same_key n) names)).
Proof.
  unfold entries_for, same_key.
  induction names as [| k names IH]; simpl; [reflexivity |].
  destruct (scalar_eqb k n); simpl; rewrite IH; reflexivity.
Qed.

(** X8.  On a list of column names [handle_simple_column] does not fail;
    it appends the bare test name to the tests of a column once for each
    time the column is listed, creates the columns that are new and leaves
    the name and the model-level tests of the builder as they were. *)
Theorem simple_test_is_recorded_per_name
  (self : ModelTestBuilder) (names : list scalar) (test_name : scalar) :
  exists self',
    handle_simple_column self (map VScalar names) test_name = Ok self' /\
    model_name self' = model_name self /\
    model_tests self' = model_tests self /\
    forall n,
      tests_at (columns self') n
      = tests_at (columns self) n
        ++ repeat (Bare test_name)
             (List.length (filter (same_key n) names)).
Proof.
  eexists. split; [apply handle_simple_column_names |].
  split; [reflexivity |]. split; [reflexivity |].
  intros n. simpl. rewrite tests_at_record_all, entries_for_bare.
  reflexivity.
Qed.

Lemma handle_simple_column_app test_name post pre : forall self self1,
  handle_simple_column self pre test_name = Ok self1 ->
  handle_simple_column self (pre ++ post) test_name
  = handle_simple_column self1 post test_name.
Proof.
  induction pre as [| v pre IH]; simpl; intros self self1 H.
  - injection H as <-. reflexivity.
  - bind_inv H as self2 Hadd. rewrite Hadd. simpl. apply IH. exact H.
Qed.

(** X14.  A column name that is a list or a mapping cannot be a key of the
    column dictionary: [handle_simple_column] raises [TypeError] when it
    reaches the first such element of the test values. *)
Theorem unhashable_column_name_raises
  (self : ModelTestBuilder) (pre : list scalar) (v : value)
  (post : list value) (test_name : scalar) :
  (forall k, v <> VScalar k) ->
  handle_simple_column self (map VScalar pre ++ v :: post) test_name
  = Err TypeError.
Proof.
  intros Hv.
  rewrite (handle_simple_column_app test_name (v :: post) _ _
             (handle_simple_column_names test_name pre self)).
  assert (Hk : as_key v = Err TypeError).
  { destruct v as [k | l | d]; try reflexivity.
    exfalso. exact (Hv k eq_refl). }
  simpl. rewrite (add_test_Err _ _ _ Hk). reflexivity.
Qed.

Lemma unhashable_column_name_raises_witness :
  handle_simple_column (new_builder (SStr "foo"))
    (map VScalar [SStr "id"] ++ VList [vstr "a"; vstr "b"] :: [vstr "email"])
    (SStr "not_null")
  = Err TypeError.
Proof.
  apply (@unhashable_column_name_raises (new_builder (SStr "foo"))
           [SStr "id"] (VList [vstr "a"; vstr "b"]) [vstr "email"]
           (SStr "not_null")).
  intros k H. discriminate H.
Defined.

(** *** Sorting what is sorted *)

Section Resort.
Variable A : Type.
Variable key : A -> res scalar.

Lemma sort_keyed_fixed (l : list (scalar * A)) :
  StronglySorted (@le_fst A) l -> sort_keyed l = Ok l.
Proof.
  induction 1 as [| [k x] l _ IH Hall]; simpl; [reflexivity |].
  rewrite IH. simpl. destruct l as [| [k' y] l]; [reflexivity |].
  inversion Hall as [| ? ? Hle _]; subst.
  unfold le_fst, key_le in Hle. simpl in Hle. simpl. rewrite Hle.
  reflexivity.
Qed.

Lemma keys_of_keyed (s : list (scalar * A)) :
  Forall (keyed key) s -> keys_of key (map snd s) = Ok s.
Proof.
  induction 1 as [| [k x] s Hx _ IH]; simpl; [reflexivity |].
  unfold keyed in Hx. simpl in Hx. rewrite Hx, IH. reflexivity.
Qed.

(** Sorting the result of a sort returns it. *)
Lemma py_sorted_fixed (l r : list A) :
  py_sorted key l = Ok r -> py_sorted key r = Ok r.
Proof.
  unfold py_sorted. intros H. bind_inv H as kl Hkl. bind_inv H as s Hs.
  injection H as <-.
  destruct (@keys_of_spec A key l kl Hkl) as [_ Hk].
  pose proof (Permutation_Forall (sort_keyed_perm _ Hs) Hk) as Hk'.
  rewrite (keys_of_keyed Hk'). simpl.
  rewrite (sort_keyed_fixed (sort_keyed_sorted _ Hs)). reflexivity.
Qed.
Lemma keyed_list (l : list A) :
  Forall (fun a => exists k, key a = Ok k) l ->
  StronglySorted (le_by_key key) l ->
  exists kl,
    keys_of key l = Ok kl /\ map snd kl = l /\
    StronglySorted (@le_fst A) kl.
Proof.
  induction l as [| a l IH]; intros Hk Hs.
  - exists []. repeat split; constructor.
  - inversion Hk as [| ? ? [k Ha] Hk']; subst.
    inversion Hs as [| ? ? Hs' Hall]; subst.
    destruct (IH Hk' Hs') as [kl [Hkl [Hmap Hsorted]]].
    exists ((k, a) :: kl). simpl. rewrite Ha, Hkl. simpl.
    repeat split; [rewrite Hmap; reflexivity |].
    constructor; [exact Hsorted |].
    destruct (@keys_of_spec A key l kl Hkl) as [_ Hkeyed].
    rewrite Forall_forall in *. intros q Hq.
    assert (Hin : In (snd q) l) by (rewrite <- Hmap; apply in_map; exact Hq).
    destruct (Hall _ Hin) as [ka [kb [Hka [Hkb Hle]]]].
    pose proof (Hkeyed q Hq) as Hq'. unfold keyed in Hq'.
    unfold le_fst. simpl. congruence.
Qed.

(** Sorting a list that is in order returns it. *)
Lemma py_sorted_of_sorted (l : list A) :
  Forall (fun a => exists k, key a = Ok k) l ->
  StronglySorted (le_by_key key) l ->
  py_sorted key l = Ok l.
Proof.
  intros Hk Hs. destruct (keyed_list Hk Hs) as [kl [Hkl [Hmap Hsorted]]].
  unfold py_sorted. rewrite Hkl. simpl.
  rewrite (sort_keyed_fixed Hsorted). simpl. rewrite Hmap. reflexivity.
Qed.
End Resort.

Lemma sort_tests_loop_fixed cols :
  Forall (fun c => py_sorted sort_keyfunc (tests c) = Ok (tests c)) cols ->
  forall acc, sort_tests_loop cols acc = Ok (acc ++ cols).
Proof.
  induction 1 as [| c cols Hc _ IH]; simpl; intros acc.
  - rewrite app_nil_r. reflexivity.
  - rewrite Hc. simpl. rewrite IH. rewrite <- app_assoc.
    destruct c; reflexivity.
Qed.

Lemma names_sorted_by_key (l : list column) :
  StronglySorted key_le (map name l) ->
  StronglySorted (le_by_key (fun c => Ok (name c))) l.
Proof.
  induction l as [| c l IH]; simpl; intros H; constructor;
    inversion H as [| ? ? Hs Hall]; subst.
  - apply IH. exact Hs.
  - rewrite Forall_map in Hall. eapply Forall_impl; [| exact Hall].
    intros c' Hle. exists (name c), (name c'). repeat split. exact Hle.
Qed.

Lemma tests_sorted_of_fixed sorted out :
  Forall2 tests_sorted_of sorted out ->
  Forall (fun c => py_sorted sort_keyfunc (tests c) = Ok (tests c)) out.
Proof.
  induction 1 as [| c c' l l' [_ Hs] _ IH]; constructor; [| exact IH].
  exact (py_sorted_fixed _ _ Hs).
Qed.

(** X11.  [sorted_column_list] puts the columns in a form that it leaves
    alone: applied to the columns it has returned, it returns them again,
    in the same order and with the same tests. *)
Theorem sorted_column_list_is_idempotent
  (column_dict : list (scalar * column)) (out : list column) :
  sorted_column_list column_dict = Ok out ->
  sorted_column_list (as_column_dict out) = Ok out.
Proof.
  intros H. destruct (sorted_column_list_spec _ H) as [sorted [Hs HF]].
  unfold sorted_column_list, as_column_dict.
  rewrite map_map. simpl. rewrite map_id.
  rewrite py_sorted_of_sorted.
  - simpl. rewrite (sort_tests_loop_fixed (tests_sorted_of_fixed HF)).
    reflexivity.
  - rewrite Forall_forall. intros c _. eexists. reflexivity.
  - apply names_sorted_by_key. rewrite (Forall2_names HF).
    apply sorted_by_name_key_le. exact (py_sorted_sorted _ _ Hs).
Qed.

Lemma sorted_column_list_is_idempotent_witness :
  sorted_column_list (as_column_dict (model_columns expected_foo))
  = Ok (model_columns expected_foo).
Proof.
  apply (@sorted_column_list_is_idempotent
           [(SStr "id", mkColumn (SStr "id")
                          [Bare (SStr "not_null"); Bare (SStr "unique")]);
            (SStr "email", mkColumn (SStr "email")
                             [Bare (SStr "not_null"); Bare (SStr "unique")]);
            (SStr "favorite_color",
             mkColumn (SStr "favorite_color")
               [Bare (SStr "not_null");
                Mapping (SStr "accepted_values")
                  [(SStr "values", VList [vstr "blue"; vstr "green"])]]);
            (SStr "likes_puppies",
             mkColumn (SStr "likes_puppies")
               [Mapping (SStr "accepted_values")
                  [(SStr "values", VList [vstr "yes"])]])]
           (model_columns expected_foo)).
  vm_compute. reflexivity.
Defined.

(** *** Column names that cannot be compared *)

Lemma raises_of_not_Ok (A : Type) (m : res A) :
  (forall a, m <> Ok a) -> raises m.
Proof.
  destruct m as [a | e]; simpl; intros H; [| exact I].
  exact (H a eq_refl).
Qed.

Lemma keyed_names (kl : list (scalar * column)) :
  Forall (keyed (fun c => Ok (name c))) kl ->
  map fst kl = map name (map snd kl).
Proof.
  induction 1 as [| [k c] kl Hk _ IH]; simpl; [reflexivity |].
  unfold keyed in Hk. simpl in Hk. injection Hk as <-.
  rewrite IH. reflexivity.
Qed.

(** X13.  Column names are compared with [<] when they are sorted: a
    column dictionary that holds a column named by a string and a column
    named by a number is not sorted, [sorted_column_list] raises, and so
    does [generate_model_dict] on a builder that holds it. *)
Theorem mixed_column_names_raise
  (column_dict : list (scalar * column))
  (k1 : scalar) (c1 : column) (k2 : scalar) (c2 : column) :
  In (k1, c1) column_dict -> In (k2, c2) column_dict ->
  str_key (name c1) -> num_key (name c2) ->
  raises (sorted_column_list column_dict) /\
  (forall self,
     columns self = column_dict -> raises (generate_model_dict self)).
Proof.
  intros H1 H2 Hstr Hnum.
  assert (Hr : raises (sorted_column_list column_dict)).
  { apply raises_of_not_Ok. intros out H.
    destruct (sorted_column_list_spec _ H) as [sorted [Hs _]].
    unfold py_sorted in Hs. bind_inv Hs as kl Hkl. bind_inv Hs as s Hs'.
    destruct (@keys_of_spec column (fun c => Ok (name c))
                (map snd column_dict) kl Hkl) as [Hmap Hkeyed].
    pose proof (keyed_names Hkeyed) as Hfst. rewrite Hmap in Hfst.
    assert (Hin1 : In (name c1) (map fst kl)).
    { rewrite Hfst. apply in_map. apply (in_map snd) in H1. exact H1. }
    assert (Hin2 : In (name c2) (map fst kl)).
    { rewrite Hfst. apply in_map. apply (in_map snd) in H2. exact H2. }
    destruct (proj1 (Totality.sort_keyed_returns_iff kl)
                (ex_intro _ s Hs')) as [Hlen | [Hu | Hu]].
    - rewrite <- (length_map fst) in Hlen.
      destruct (map fst kl) as [| x [| y l]]; simpl in *.
      + destruct Hin1.
      + destruct Hin1 as [E1 | []]. destruct Hin2 as [E2 | []].
        assert (Heq : name c1 = name c2) by congruence.
        rewrite Heq in Hstr.
        exact (Totality.str_num_disjoint Hstr Hnum).
      + lia.
    - rewrite Forall_forall in Hu.
      exact (Totality.str_num_disjoint (Hu _ Hin2) Hnum).
    - rewrite Forall_forall in Hu.
      exact (Totality.str_num_disjoint Hstr (Hu _ Hin1)). }
  split; [exact Hr |].
  intros self Hcols. unfold generate_model_dict. rewrite Hcols.
  destruct column_dict as [| q cols]; [destruct H1 |].
  apply bind_raises_l. exact Hr.
Qed.

Lemma mixed_column_names_raise_witness :
  raises (sorted_column_list mixed_columns) /\
  (forall self,
     columns self = mixed_columns -> raises (generate_model_dict self)).
Proof.
  apply (@mixed_column_names_raise mixed_columns
           (SStr "id") (mkColumn (SStr "id") [Bare (SStr "not_null")])
           (SInt 1) (mkColumn (SInt 1) [Bare (SStr "not_null")])).
  - simpl. left. reflexivity.
  - simpl. right. left. reflexivity.
  - exists "id". reflexivity.
  - exists 1%Z. reflexivity.
Defined.

(** *** Documents of the data model *)

(** Checks a list of constraints against the data model, kind by kind and
    element by element. *)
Ltac check_constraints :=
  repeat apply Forall_cons; try apply Forall_nil;
  (split; [simpl; auto 6 |]);
  (eexists; split; [reflexivity |]);
  repeat apply Forall_cons; try apply Forall_nil;
  unfold element_ok; simpl;
  first [ eexists; reflexivity | do 2 eexists; split; reflexivity ].

Lemma sample_is_of_the_data_model : document_ok SAMPLE_SCHEMA.
Proof.
  exists sample_items. split; [reflexivity |].
  apply Forall_cons; [| apply Forall_cons; [| apply Forall_nil]].
  - exists [(SStr "constraints", VDict foo_constraints)].
    split; [reflexivity |]. simpl.
    exists foo_constraints. split; [reflexivity |]. check_constraints.
  - exists [(SStr "constraints",
             VDict [(SStr "not_null", VList [vstr "id"])])].
    split; [reflexivity |]. simpl.
    eexists. split; [reflexivity |]. check_constraints.
Defined.

Lemma data_model_documents_convert_witness :
  exists out, convert_schema SAMPLE_SCHEMA = Ok out.
Proof.
  apply (@Totality.convert_schema_total SAMPLE_SCHEMA).
  exact sample_is_of_the_data_model.
Defined.

(** *** The order of the constraint kinds does not matter *)

Lemma tie_str_eqb s t : tie (SStr s) (SStr t) = String.eqb s t.
Proof.
  unfold tie. simpl. destruct (String.eqb_spec s t) as [-> | Hne].
  - rewrite str_ltb_irrefl. reflexivity.
  - destruct (String.ltb s t) eqn:E1; [reflexivity |].
    destruct (String.ltb t s) eqn:E2; [reflexivity |].
    exfalso. apply Hne. exact (str_ltb_total _ _ E1 E2).
Qed.

Section StableUnique.
Variable A : Type.
Variable key : A -> res scalar.

Lemma tied_by_key_str s a t :
  key a = Ok (SStr t) -> tied_by_key key (SStr s) a = String.eqb s t.
Proof.
  intros Ha. unfold tied_by_key. rewrite Ha. apply tie_str_eqb.
Qed.

Lemma le_by_key_str a b s t :
  key a = Ok (SStr s) -> key b = Ok (SStr t) ->
  le_by_key key a b -> String.ltb t s = false.
Proof.
  intros Ha Hb [ka [kb [Hka [Hkb Hle]]]].
  rewrite Ha in Hka. rewrite Hb in Hkb.
  injection Hka as <-. injection Hkb as <-.
  unfold key_le in Hle. simpl in Hle. injection Hle as Hle. exact Hle.
Qed.

(** Two sorted lists that agree on the elements of each key are equal. *)
Lemma stable_sorted_unique : forall (r r' : list A),
  Forall (has_str_key key) r -> Forall (has_str_key key) r' ->
  StronglySorted (le_by_key key) r ->
  StronglySorted (le_by_key key) r' ->
  (forall s,
     filter (tied_by_key key (SStr s)) r
     = filter (tied_by_key key (SStr s)) r') ->
  r = r'.
Proof.
  induction r as [| x r IH]; intros r' Hk Hk' Hs Hs' Hf.
  - destruct r' as [| y r']; [reflexivity |].
    inversion Hk' as [| ? ? [sy Hy] _]; subst.
    specialize (Hf sy). simpl in Hf.
    rewrite (tied_by_key_str sy Hy), String.eqb_refl in Hf.
    discriminate Hf.
  - inversion Hk as [| ? ? [sx Hx] Hkr]; subst.
    destruct r' as [| y r'].
    + specialize (Hf sx). simpl in Hf.
      rewrite (tied_by_key_str sx Hx), String.eqb_refl in Hf.
      discriminate Hf.
    + inversion Hk' as [| ? ? [sy Hy] Hkr']; subst.
      inversion Hs as [| ? ? Hsr Hall]; subst.
      inversion Hs' as [| ? ? Hsr' Hall']; subst.
      assert (Hxy : In x (y :: r')).
      { pose proof (Hf sx) as Hfx. simpl in Hfx.
        rewrite (tied_by_key_str sx Hx), String.eqb_refl in Hfx.
        assert (Hin : In x (filter (tied_by_key key (SStr sx)) (y :: r')))
          by (simpl; rewrite <- Hfx; left; reflexivity).
        apply filter_In in Hin. exact (proj1 Hin). }
      assert (Hyx : In y (x :: r)).
      { pose proof (Hf sy) as Hfy. simpl in Hfy.
        rewrite (tied_by_key_str sy Hy), String.eqb_refl in Hfy.
        assert (Hin : In y (filter (tied_by_key key (SStr sy)) (x :: r)))
          by (simpl; rewrite Hfy; left; reflexivity).
        apply filter_In in Hin. exact (proj1 Hin). }
      assert (Hsame : sx = sy).
      { destruct Hxy as [-> | Hxy]; [congruence |].
        destruct Hyx as [-> | Hyx]; [congruence |].
        rewrite Forall_forall in Hall, Hall'.
        pose proof (le_by_key_str Hy Hx (Hall' _ Hxy)) as H1.
        pose proof (le_by_key_str Hx Hy (Hall _ Hyx)) as H2.
        exact (str_ltb_total _ _ H1 H2). }
      subst sy.
      pose proof (Hf sx) as Hfx. simpl in Hfx.
      rewrite (tied_by_key_str sx Hx), (tied_by_key_str sx Hy),
        String.eqb_refl in Hfx.
      injection Hfx as -> Hrest.
      f_equal. apply IH; try assumption.
      intros s. specialize (Hf s). simpl in Hf.
      rewrite (tied_by_key_str s Hx) in Hf.
      destruct (String.eqb s sx); [injection Hf as Hf |]; exact Hf.
Qed.
End StableUnique.

Lemma key_lt_asym x y : key_lt x y -> key_lt y x -> False.
Proof.
  intros H1 H2. apply key_lt_le in H1. unfold key_le, key_lt in *.
  congruence.
Qed.

(** Two strictly sorted lists with the same elements are equal. *)
Lemma strictly_sorted_unique : forall (l l' : list scalar),
  StronglySorted key_lt l -> StronglySorted key_lt l' ->
  (forall x, In x l <-> In x l') -> l = l'.
Proof.
  induction l as [| x l IH]; intros l' Hs Hs' Hin.
  - destruct l' as [| y l']; [reflexivity |].
    exfalso. apply (proj2 (Hin y)). left. reflexivity.
  - destruct l' as [| y l'].
    + exfalso. apply (proj1 (Hin x)). left. reflexivity.
    + inversion Hs as [| ? ? Hsl Hall]; subst.
      inversion Hs' as [| ? ? Hsl' Hall']; subst.
      rewrite Forall_forall in Hall, Hall'.
      assert (Hxy : x = y).
      { destruct (proj1 (Hin x) (or_introl eq_refl)) as [Hy | Hy];
          [congruence |].
        destruct (proj2 (Hin y) (or_introl eq_refl)) as [Hx | Hx];
          [congruence |].
        exfalso. exact (key_lt_asym (Hall _ Hx) (Hall' _ Hy)). }
      subst y. f_equal. apply IH; try assumption.
      intros z. split; intros Hz.
      * destruct (proj1 (Hin z) (or_intror Hz)) as [Heq | Hz'];
          [| exact Hz'].
        subst z. exfalso. exact (key_lt_asym (Hall _ Hz) (Hall _ Hz)).
      * destruct (proj2 (Hin z) (or_intror Hz)) as [Heq | Hz'];
          [| exact Hz'].
        subst z. exfalso. exact (key_lt_asym (Hall' _ Hz) (Hall' _ Hz)).
Qed.

Lemma columns_ext : forall (l l' : list column),
  map name l = map name l' ->
  (forall c c', In c l -> In c' l' -> name c = name c' ->
                tests c = tests c') ->
  l = l'.
Proof.
  induction l as [| c l IH]; intros [| c' l'] Hn Ht;
    try discriminate Hn; [reflexivity |].
  simpl in Hn. injection Hn as Hc Hl.
  assert (Hcc : c = c').
  { pose proof (Ht c c' (or_introl eq_refl) (or_introl eq_refl) Hc) as Htc.
    destruct c, c'. simpl in *. congruence. }
  rewrite Hcc. f_equal. apply IH; [exact Hl |].
  intros d d' Hd Hd'. apply Ht; right; assumption.
Qed.

Lemma filter_all (A : Type) (g : A -> bool) (b : bool) (l : list A) :
  Forall (fun x => g x = b) l -> filter g l = if b then l else [].
Proof.
  induction 1 as [| x l Hx _ IH]; simpl.
  - destruct b; reflexivity.
  - rewrite Hx, IH. destruct b; reflexivity.
Qed.

Lemma filter_comm (A : Type) (f g : A -> bool) (l : list A) :
  filter f (filter g l) = filter g (filter f l).
Proof.
  induction l as [| x l IH]; simpl; [reflexivity |].
  destruct (g x) eqn:Eg, (f x) eqn:Ef; simpl; rewrite ?Eg, ?Ef, IH;
    reflexivity.
Qed.

(** The entries that a constraint kind declares have that kind as key. *)
Lemma declarations_key t test_values :
  Forall (fun p => sort_keyfunc (snd p) = Ok (SStr t))
         (declarations_of (SStr t) test_values).
Proof.
  unfold declarations_of. destruct test_values as [x | vs | d];
    try constructor.
  destruct (in_SIMPLE (SStr t)).
  - induction vs as [| v vs IH]; simpl; [constructor |].
    apply Forall_app. split; [| exact IH].
    destruct v; simpl; repeat constructor.
  - destruct (dict_get COMPLEX_COLUMN_TESTS (SStr t)) as [ck |];
      [| constructor].
    induction vs as [| v vs IH]; simpl; [constructor |].
    apply Forall_app. split; [| exact IH].
    destruct v as [x | l | d]; simpl; try constructor.
    destruct (dict_get d (SStr ck)) as [[k | l | d'] |];
      repeat constructor.
Qed.

Lemma declared_of_kind s cs :
  Forall (fun kv => str_key (fst kv)) cs ->
  filter (of_kind s) (declared_tests cs)
  = declared_tests (filter (is_kind s) cs).
Proof.
  unfold declared_tests.
  induction 1 as [| [tn tv] cs [t Ht] _ IH]; simpl; [reflexivity |].
  simpl in Ht. subst tn. rewrite filter_app, IH.
  change (is_kind s (SStr t, tv)) with (String.eqb t s).
  rewrite (@filter_all _ (of_kind s) (String.eqb s t)).
  - rewrite (String.eqb_sym t s).
    destruct (String.eqb s t); reflexivity.
  - eapply Forall_impl; [| apply declarations_key].
    intros p Hp. unfold of_kind.
    exact (@tied_by_key_str test_entry sort_keyfunc s (snd p) t Hp).
Qed.

Lemma entries_for_of_kind s n log :
  filter (tied_by_key sort_keyfunc (SStr s)) (entries_for n log)
  = entries_for n (filter (of_kind s) log).
Proof.
  unfold entries_for. rewrite filter_map_swap.
  fold (of_kind s). rewrite filter_comm. reflexivity.
Qed.

Lemma filter_keys_length (V : Type) (d : list (scalar * V)) k :
  List.length (filter (fun kv => scalar_eqb (fst kv) k) d)
  = List.length (filter (same_key k) (map fst d)).
Proof.
  induction d as [| [k0 v0] d IH]; simpl; [reflexivity |].
  unfold same_key at 1. destruct (scalar_eqb k0 k); simpl; rewrite IH;
    reflexivity.
Qed.

(** In a mapping a kind has one list of test values, wherever it stands. *)
Lemma one_item_per_kind s (cs cs' : dict) :
  distinct_keys cs -> Permutation cs cs' ->
  filter (is_kind s) cs = filter (is_kind s) cs'.
Proof.
  intros Hd Hp.
  pose proof (Permutation_filter (is_kind s) Hp) as Hf.
  pose proof (filter_keys_length cs (SStr s)) as Hlen.
  rewrite (count_keys cs (SStr s) Hd) in Hlen.
  fold (is_kind s) in Hlen.
  destruct (filter (is_kind s) cs) as [| a [| b l]].
  - symmetry. apply Permutation_nil. exact Hf.
  - symmetry. apply Permutation_length_1_inv. exact Hf.
  - simpl in Hlen. destruct (dict_mem cs (SStr s)); discriminate Hlen.
Qed.

Lemma constraint_kinds_str cs :
  Forall constraint_ok cs -> Forall (fun kv => str_key (fst kv)) cs.
Proof.
  intros H. eapply Forall_impl; [| exact H].
  intros kv [Hkind _].
  destruct (@Totality.known_kind_cases _ Hkind) as [[_ Hs] | [ck [_ Hs]]];
    exact Hs.
Qed.

Lemma entries_str_keys n log :
  Forall decl_ok log ->
  Forall (has_str_key sort_keyfunc) (entries_for n log).
Proof.
  intros H. rewrite Forall_forall in *. intros e He.
  unfold entries_for in He. apply in_map_iff in He.
  destruct He as [p [<- Hp]]. apply filter_In in Hp.
  exact (proj2 (H p (proj1 Hp))).
Qed.

Lemma built_from_tests_unique n cs cs' m m' c c' :
  Forall constraint_ok cs -> distinct_keys cs -> Permutation cs cs' ->
  built_from n cs m -> built_from n cs' m' ->
  In c (model_columns m) -> In c' (model_columns m') ->
  name c = name c' -> tests c = tests c'.
Proof.
  intros Hok Hd Hp Hb Hb' Hc Hc' Hname.
  pose proof (Permutation_Forall Hp Hok) as Hok'.
  pose proof (built_from_column c Hb Hc) as Hsort.
  pose proof (built_from_column c' Hb' Hc') as Hsort'.
  rewrite <- Hname in Hsort'.
  apply (@stable_sorted_unique test_entry sort_keyfunc).
  - apply (Permutation_Forall (py_sorted_perm _ _ Hsort)).
    apply entries_str_keys. apply Totality.declared_tests_ok. exact Hok.
  - apply (Permutation_Forall (py_sorted_perm _ _ Hsort')).
    apply entries_str_keys. apply Totality.declared_tests_ok. exact Hok'.
  - exact (py_sorted_sorted _ _ Hsort).
  - exact (py_sorted_sorted _ _ Hsort').
  - intros s.
    rewrite (py_sorted_stable _ (SStr s) _ Hsort).
    rewrite (py_sorted_stable _ (SStr s) _ Hsort').
    rewrite !entries_for_of_kind.
    rewrite (declared_of_kind s (constraint_kinds_str Hok)).
    rewrite (declared_of_kind s (constraint_kinds_str Hok')).
    rewrite (one_item_per_kind s Hd Hp). reflexivity.
Qed.

Lemma built_from_names_declared n cs m :
  Forall constraint_ok cs -> built_from n cs m ->
  forall x,
    In x (map name (model_columns m)) <->
    In x (map fst (declared_tests cs)).
Proof.
  intros Hok Hb x.
  pose proof (Totality.declared_tests_ok Hok) as Hdecl.
  rewrite Forall_forall in Hdecl.
  pose proof (built_from_name_count x Hb) as Hcount.
  split; intros Hx.
  - assert (Hge : 1 <= List.length
                         (filter (same_key x)
                            (map name (model_columns m)))).
    { apply (count_ge_1 x _ x Hx). apply scalar_eqb_refl. }
    rewrite Hcount in Hge.
    destruct (existsb (fun p => scalar_eqb (fst p) x) (declared_tests cs))
      eqn:E; [| lia].
    apply existsb_exists in E. destruct E as [p [Hp Heq]].
    destruct (proj1 (Hdecl p Hp)) as [s Hs]. rewrite Hs in Heq.
    apply scalar_eqb_str in Heq. subst x. rewrite <- Hs.
    apply in_map. exact Hp.
  - apply in_map_iff in Hx. destruct Hx as [p [<- Hp]].
    assert (E : existsb (fun q => scalar_eqb (fst q) (fst p))
                  (declared_tests cs) = true).
    { apply existsb_exists. exists p. split; [exact Hp |].
      apply scalar_eqb_refl. }
    rewrite E in Hcount.
    destruct (filter (same_key (fst p)) (map name (model_columns m)))
      as [| y l] eqn:F; [discriminate Hcount |].
    assert (Hy : In y (filter (same_key (fst p))
                         (map name (model_columns m))))
      by (rewrite F; left; reflexivity).
    apply filter_In in Hy. destruct Hy as [Hy Hsame].
    destruct (proj1 (Hdecl p Hp)) as [s Hs]. rewrite Hs in *.
    unfold same_key in Hsame. rewrite scalar_eqb_sym in Hsame.
    apply scalar_eqb_str in Hsame. subst y. exact Hy.
Qed.

Lemma built_from_build_model n cs m :
  built_from n cs m -> build_model n (VDict cs) = Ok m.
Proof.
  intros [b [Hp Hg]]. unfold build_model, populate_from_constraints.
  simpl. rewrite Hp. simpl. exact Hg.
Qed.

(** X3.  The record of a model does not depend on the order in which its
    constraints mapping lists the test kinds: for constraints of the data
    model, any rearrangement of the kinds gives the same record, columns
    and tests in the same order. *)
Theorem constraint_order_is_irrelevant
  (n : scalar) (cs cs' : dict) :
  Forall constraint_ok cs -> distinct_keys cs -> Permutation cs cs' ->
  exists m,
    build_model n (VDict cs) = Ok m /\ build_model n (VDict cs') = Ok m.
Proof.
  intros Hok Hd Hp.
  pose proof (Permutation_Forall Hp Hok) as Hok'.
  destruct (Totality.model_total n Hok) as [m Hb].
  destruct (Totality.model_total n Hok') as [m' Hb'].
  exists m. split; [exact (built_from_build_model Hb) |].
  rewrite (built_from_build_model Hb'). f_equal.
  assert (Hcols : model_columns m = model_columns m').
  { apply columns_ext.
    - apply strictly_sorted_unique.
      + exact (built_from_names_sorted Hb).
      + exact (built_from_names_sorted Hb').
      + intros x.
        rewrite (built_from_names_declared Hok Hb x).
        rewrite (built_from_names_declared Hok' Hb' x).
        pose proof (Permutation_map fst
                      (Permutation_flat_map
                         (fun kv => declarations_of (fst kv) (snd kv)) Hp))
          as Hperm.
        split; intros Hx.
        * exact (Permutation_in _ Hperm Hx).
        * exact (Permutation_in _ (Permutation_sym Hperm) Hx).
    - intros c c' Hc Hc' Hname.
      exact (@built_from_tests_unique n cs cs' m m' c c'
               Hok Hd Hp Hb Hb' Hc Hc' Hname). }
  destruct (built_from_anatomy Hb) as [Hn [Ht _]].
  destruct (built_from_anatomy Hb') as [Hn' [Ht' _]].
  pose proof (built_from_columns_nonempty Hb) as Hne.
  pose proof (built_from_columns_nonempty Hb') as Hne'.
  destruct m as [nm ts cols], m' as [nm' ts' cols']. simpl in *.
  subst nm nm' ts ts'. unfold model_columns in Hcols. simpl in Hcols.
  destruct cols as [l |], cols' as [l' |]; subst; try reflexivity;
    exfalso; first [apply Hne; reflexivity | apply Hne'; reflexivity].
Qed.

Lemma foo_constraints_ok : Forall constraint_ok foo_constraints.
Proof. check_constraints. Defined.

Lemma constraint_order_is_irrelevant_witness :
  exists m,
    build_model (SStr "foo") (VDict foo_constraints) = Ok m /\
    build_model (SStr "foo") (VDict foo_constraints_reordered) = Ok m.
Proof.
  apply (@constraint_order_is_irrelevant (SStr "foo") foo_constraints
           foo_constraints_reordered).
  - exact foo_constraints_ok.
  - simpl. repeat split; reflexivity.
  - exact (Permutation_rev foo_constraints).
Defined.

(** *** Elements and definitions of another shape *)

Lemma handle_complex_loop_not_mapping column_key test_name dct rest self :
  (forall d, dct <> VDict d) ->
  raises (handle_complex_loop self column_key (dct :: rest) test_name).
Proof.
  intros Hd. simpl. destruct dct as [x | l | d].
  - destruct x as [| b | z | s]; simpl; try exact I.
    destruct (str_contains column_key s); simpl; exact I.
  - simpl. destruct (existsb (fun v => is_str v column_key) l); simpl;
      exact I.
  - exfalso. exact (Hd d eq_refl).
Qed.

(** X15.  The elements of a complex test have to be mappings: when one of
    the test values of [relationships] or [accepted_values] is a string, a
    number or a list, [handle_complex_column] does not return. *)
Theorem complex_element_must_be_a_mapping
  (self : ModelTestBuilder) (test_name : scalar) (column_key : string)
  (dct : value) (test_values : list value) :
  dict_get COMPLEX_COLUMN_TESTS test_name = Some column_key ->
  In dct test_values ->
  (forall d, dct <> VDict d) ->
  raises (handle_complex_column self test_values test_name).
Proof.
  intros Hkey Hin Hd. unfold handle_complex_column. rewrite Hkey.
  revert self. induction test_values as [| v vs IH]; [destruct Hin |].
  intros self. destruct Hin as [-> | Hin].
  - apply handle_complex_loop_not_mapping. exact Hd.
  - simpl. apply raises_bind. intros present _.
    destruct present; simpl; [| exact I].
    apply raises_bind. intros column_name _.
    apply raises_bind. intros its _.
    apply raises_bind. intros self1 _. apply IH. exact Hin.
Qed.

Lemma complex_element_must_be_a_mapping_witness :
  raises (handle_complex_column (new_builder (SStr "foo"))
            [VDict favorite_color_element; vstr "likes_puppies"]
            (SStr "accepted_values")).
Proof.
  apply (@complex_element_must_be_a_mapping (new_builder (SStr "foo"))
           (SStr "accepted_values") "field" (vstr "likes_puppies")
           [VDict favorite_color_element; vstr "likes_puppies"]).
  - reflexivity.
  - simpl. right. left. reflexivity.
  - intros d H. discriminate H.
Defined.

Lemma convert_loop_skip_item n data post :
  py_in "constraints" data = Ok false ->
  forall pre acc,
  convert_loop (pre ++ (n, data) :: post) acc
  = convert_loop (pre ++ post) acc.
Proof.
  intros Hno pre acc. rewrite !convert_loop_app.
  destruct (convert_loop pre acc) as [ma | e]; simpl; [| reflexivity].
  rewrite Hno. reflexivity.
Qed.

(** X16.  A model definition that is a string is tested with
    ['constraints' not in model_data] as a text: when the text does not
    contain the word the model is skipped like a model without
    constraints, and when it does the conversion fails, since a string has
    no item ['constraints']. *)
Theorem string_definition_is_searched
  (pre post : dict) (n : scalar) (s : string) :
  (str_contains "constraints" s = false ->
   convert_schema (VDict (pre ++ (n, vstr s) :: post))
   = convert_schema (VDict (pre ++ post))) /\
  (str_contains "constraints" s = true ->
   raises (convert_schema (VDict (pre ++ (n, vstr s) :: post))) /\
   convert_schema (VDict ((n, vstr s) :: post)) = Err TypeError).
Proof.
  split.
  - intros Hs. unfold convert_schema. simpl.
    rewrite (convert_loop_skip_item n (vstr s) post); [reflexivity |].
    simpl. rewrite Hs. reflexivity.
  - intros Hs.
    assert (Hp : py_in "constraints" (vstr s) = Ok true)
      by (simpl; rewrite Hs; reflexivity).
    split.
    + unfold convert_schema. simpl. apply bind_raises_l.
      apply (convert_loop_item_raises n (vstr s)
               (pre ++ (n, vstr s) :: post) (in_elt _ _ _)).
      right. split; [exact Hp | exact I].
    + unfold convert_schema. simpl py_items. cbn [bind].
      rewrite (convert_loop_cons _ _ _ _ Hp). reflexivity.
Qed.

Lemma string_definition_is_searched_witness :
  convert_schema (VDict ([] ++ (SStr "notes", vstr "no tests yet")
                         :: [(SStr "bar", bar_definition)]))
  = convert_schema (VDict ([] ++ [(SStr "bar", bar_definition)])) /\
  raises (convert_schema
            (VDict ([] ++ (SStr "notes", vstr "constraints: later")
                    :: [(SStr "bar", bar_definition)]))) /\
  convert_schema
    (VDict ((SStr "notes", vstr "constraints: later")
            :: [(SStr "bar", bar_definition)])) = Err TypeError.
Proof.
  split.
  - apply (proj1 (@string_definition_is_searched []
                    [(SStr "bar", bar_definition)] (SStr "notes")
                    "no tests yet")).
    reflexivity.
  - apply (proj2 (@string_definition_is_searched []
                    [(SStr "bar", bar_definition)] (SStr "notes")
                    "constraints: later")).
    reflexivity.
Defined.

(* ================================================================== *)
(** ** Order of the test entries of a column *)
(* ================================================================== *)

Lemma entry_ok_key e :
  entry_ok e ->
  exists s, entry_key e = SStr s /\ sort_keyfunc e = Ok (SStr s).
Proof.
  destruct e as [k | k params]; simpl.
  - unfold in_SIMPLE, SIMPLE_COLUMN_TESTS.
    destruct k; cbn [existsb scalar_eqb as_number orb]; try discriminate.
    intros _. eexists. split; reflexivity.
  - intros [ck [Hk _]]. unfold COMPLEX_COLUMN_TESTS in Hk.
    destruct k; cbn [dict_get scalar_eqb as_number] in Hk;
      try discriminate.
    eexists. split; reflexivity.
Qed.

Lemma leb_of_not_ltb s t : String.ltb t s = false -> String.leb s t = true.
Proof.
  unfold String.ltb, String.leb. rewrite (String.compare_antisym t s).
  destruct (String.compare s t); simpl; congruence.
Qed.

Lemma StronglySorted_weaken (A : Type) (R R' : A -> A -> Prop)
  (l : list A) :
  (forall a b, In a l -> In b l -> R a b -> R' a b) ->
  StronglySorted R l -> StronglySorted R' l.
Proof.
  intros HR Hs. induction Hs as [| a l Hs IH Hall].
  - constructor.
  - constructor.
    + apply IH. intros x y Hx Hy. apply HR; right; assumption.
    + rewrite Forall_forall in *. intros b Hb.
      apply HR; [left; reflexivity | right; exact Hb | exact (Hall b Hb)].
Qed.

Lemma le_by_key_entry_le a b :
  entry_ok a -> entry_ok b -> le_by_key sort_keyfunc a b -> entry_le a b.
Proof.
  intros Ha Hb Hle.
  destruct (entry_ok_key _ Ha) as [s [Hs Hks]].
  destruct (entry_ok_key _ Hb) as [t [Ht Hkt]].
  exists s, t. split; [exact Hs |]. split; [exact Ht |].
  apply leb_of_not_ltb.
  exact (@le_by_key_str test_entry sort_keyfunc a b s t Hks Hkt Hle).
Qed.

Lemma keyed_as_tied s l :
  Forall entry_ok l ->
  filter (keyed_as s) l = filter (tied_by_key sort_keyfunc (SStr s)) l.
Proof.
  intros Hall. apply filter_ext_in. intros e He.
  rewrite Forall_forall in Hall.
  destruct (entry_ok_key _ (Hall e He)) as [t [Ht Hkt]].
  rewrite (@tied_by_key_str test_entry sort_keyfunc s e t Hkt).
  unfold keyed_as. rewrite Ht. simpl. apply String.eqb_sym.
Qed.

Lemma entries_for_entry_ok n cs :
  Forall entry_ok (entries_for n (declared_tests cs)).
Proof.
  pose proof (declared_entry_ok cs) as Hall.
  rewrite Forall_forall in *. intros e He.
  unfold entries_for in He. apply in_map_iff in He.
  destruct He as [p [<- Hp]]. apply filter_In in Hp.
  exact (Hall p (proj1 Hp)).
Qed.

(** C7.  The key of a test entry is the entry itself when it is a bare
    string and its only key when it is a one-key mapping, and this is the
    key [sort_keyfunc] computes.  In every column record of a converted
    document every test entry has a string as its key, the test entries
    are in ascending order of their keys, and the sort is stable: the list
    is a permutation of the entries declared for the column in which the
    entries of equal key keep the order of their declaration. *)
Theorem tests_sorted_stably
  (initial : value) (out : document) (m : model) (c : column) :
  convert_schema initial = Ok out ->
  In m (models out) ->
  In c (model_columns m) ->
  (forall s, sort_keyfunc (Bare (SStr s)) = Ok (SStr s)) /\
  (forall k params, sort_keyfunc (Mapping k params) = Ok k) /\
  Forall (fun e => sort_keyfunc e = Ok (entry_key e)) (tests c) /\
  Forall (fun e => exists s, entry_key e = SStr s) (tests c) /\
  StronglySorted entry_le (tests c) /\
  StronglySorted (le_by_key sort_keyfunc) (tests c) /\
  exists items model_data cs,
    initial = VDict items /\
    In (m_name m, model_data) items /\
    constraints_of model_data = Some cs /\
    Permutation (entries_for (name c) (declared_tests cs))
                (tests c) /\
    (forall s,
       filter (keyed_as s) (tests c)
       = filter (keyed_as s)
           (entries_for (name c) (declared_tests cs))) /\
    (forall k,
       filter (tied_by_key sort_keyfunc k) (tests c)
       = filter (tied_by_key sort_keyfunc k)
           (entries_for (name c) (declared_tests cs))).
Proof.
  intros H Hm Hc.
  destruct (@models_origin initial out m H Hm)
    as [items [data [cs [Hinit [Hitem [Hget Hb]]]]]].
  pose proof (built_from_column c Hb Hc) as Hsort.
  pose proof (py_sorted_perm _ _ Hsort) as Hperm.
  pose proof (py_sorted_sorted _ _ Hsort) as Hsorted.
  pose proof (entries_for_entry_ok (name c) cs) as Hdecl.
  pose proof (Permutation_Forall Hperm Hdecl) as Hok.
  assert (Hin : forall e, In e (tests c) -> entry_ok e)
    by (apply Forall_forall; exact Hok).
  split; [reflexivity |]. split; [reflexivity |].
  split.
  { apply Forall_forall. intros e He.
    destruct (entry_ok_key _ (Hin e He)) as [s [Hs Hk]].
    rewrite Hs. exact Hk. }
  split.
  { apply Forall_forall. intros e He.
    destruct (entry_ok_key _ (Hin e He)) as [s [Hs _]].
    exists s. exact Hs. }
  split.
  { apply (@StronglySorted_weaken _ (le_by_key sort_keyfunc) entry_le);
      [| exact Hsorted].
    intros a b Ha Hb'. apply le_by_key_entry_le; apply Hin; assumption. }
  split; [exact Hsorted |].
  exists items, data, cs.
  split; [exact Hinit |]. split; [exact Hitem |].
  split; [apply getitem_constraints_of; exact Hget |].
  split; [exact Hperm |]. split.
  - intros s. rewrite (keyed_as_tied s Hok), (keyed_as_tied s Hdecl).
    exact (py_sorted_stable _ (SStr s) _ Hsort).
  - intros k. exact (py_sorted_stable _ k _ Hsort).
Qed.

Lemma tests_sorted_stably_witness :
  (forall s, sort_keyfunc (Bare (SStr s)) = Ok (SStr s)) /\
  (forall k params, sort_keyfunc (Mapping k params) = Ok k) /\
  Forall (fun e => sort_keyfunc e = Ok (entry_key e)) (tests favorite_color_column) /\
  Forall (fun e => exists s, entry_key e = SStr s) (tests favorite_color_column) /\
  StronglySorted entry_le (tests favorite_color_column) /\
  StronglySorted (le_by_key sort_keyfunc) (tests favorite_color_column) /\
  exists items model_data cs,
    SAMPLE_SCHEMA = VDict items /\
    In (m_name expected_foo, model_data) items /\
    constraints_of model_data = Some cs /\
    Permutation (entries_for (name favorite_color_column) (declared_tests cs))
                (tests favorite_color_column) /\
    (forall s,
       filter (keyed_as s) (tests favorite_color_column)
       = filter (keyed_as s)
           (entries_for (name favorite_color_column) (declared_tests cs))) /\
    (forall k,
       filter (tied_by_key sort_keyfunc k) (tests favorite_color_column)
       = filter (tied_by_key sort_keyfunc k)
           (entries_for (name favorite_color_column) (declared_tests cs))).
Proof.
  apply (@tests_sorted_stably SAMPLE_SCHEMA expected_document expected_foo
           favorite_color_column).
  - vm_compute. reflexivity.
  - simpl. left. reflexivity.
  - simpl. right. left. reflexivity.
Defined.
